(** * foundry-storage-check: the orchestration script [src/index.ts]

    A shallow embedding of the action's entry point.  The script is one
    asynchronous function [_run], wrapped by [run] in a try/catch/finally.
    It logs through [@actions/core], talks to the artifact store and to the
    GitHub API, and calls four helpers of the repository ([createLayout],
    [parseLayout], [parseSource], [formatDiff]) and the diff engine
    [checkLayouts].  Here:

    - every call with an observable effect appends an [Event] to the trace
      of the computation;
    - a JavaScript exception is the [Throw] outcome of a computation;
    - the two module-level [let] variables of the script and
      [process.exitCode] form the mutable store [Vars];
    - the collaborators are the fields of an environment record [Env]; the
      four helpers may throw, the calls into [fs], the artifact client and
      octokit are taken to return;
    - the [for await] loop over the paginated listing advances an iterator
      whose length the script does not control, so it is run with fuel and
      [Pending] is the outcome of a loop that is still running.

    [./check], [./format], [./input] and [./types] are not among the
    sources.  The script is verified against any behaviour of theirs (they
    are fields of [Env]); the claims that are about the diff engine itself
    are settled on the engine that the specification describes, which the
    second half of the definitions models. *)

From Stdlib Require Import ZArith Ascii String.
From stdpp Require Import base option list strings gmap pretty.

Local Open Scope Z_scope.

(** ** Strings of the log messages *)

(** The double-quote character of the template strings. *)
Definition dquote : string := String "034"%char EmptyString.

Definition quoted (s : string) : string := dquote +:+ s +:+ dquote.

(** What a template string prints for a possibly [undefined] string. *)
Definition show_undefined (o : option string) : string :=
  default "undefined" o.

(** ** Values exchanged with the collaborators *)

(** A JavaScript [Error]: its message and its [stack] property. *)
Record JsError := mkJsError {
  message : string;
  stack : option string
}.

(** Truthiness of a string-or-undefined value. *)
Definition truthy_string (o : option string) : bool :=
  match o with
  | Some s => negb (String.eqb s "")
  | None => false
  end.

(** Modelled from the spec: the members of [StorageLayoutDiffType]
    ([./types] is not part of the sources at hand); the taxonomy of the
    specification's section 4.3. *)
Inductive StorageLayoutDiffType :=
  | VARIABLE_ADDED
  | VARIABLE_REMOVED
  | VARIABLE_RENAMED
  | TYPE_CHANGED
  | SLOT_CHANGED.

#[global] Instance StorageLayoutDiffType_eq_dec : EqDecision StorageLayoutDiffType.
Proof. solve_decision. Defined.

Definition diffType_code (t : StorageLayoutDiffType) : nat :=
  match t with
  | VARIABLE_ADDED => 0
  | VARIABLE_REMOVED => 1
  | VARIABLE_RENAMED => 2
  | TYPE_CHANGED => 3
  | SLOT_CHANGED => 4
  end%nat.

Definition diffType_of_code (n : nat) : option StorageLayoutDiffType :=
  match n with
  | 0 => Some VARIABLE_ADDED
  | 1 => Some VARIABLE_REMOVED
  | 2 => Some VARIABLE_RENAMED
  | 3 => Some TYPE_CHANGED
  | 4 => Some SLOT_CHANGED
  | _ => None
  end%nat.

#[global] Program Instance StorageLayoutDiffType_countable :
  Countable StorageLayoutDiffType :=
  inj_countable diffType_code diffType_of_code _.
Next Obligation. by intros []. Qed.

(** The two severities of the table [diffLevels]. *)
Inductive Level := warning_level | error_level.

#[global] Instance Level_eq_dec : EqDecision Level.
Proof. solve_decision. Defined.

(** Modelled from the spec: a storage variable and a storage layout
    (section 3, the declarations of [./types] are missing). *)
Record StorageVariable := mkVar {
  name : string;
  typeSignature : string;
  byteSize : N;
  slot : N;
  offset : N
}.

#[global] Instance StorageVariable_eq_dec : EqDecision StorageVariable.
Proof. solve_decision. Defined.

Abbreviation StorageLayout := (list StorageVariable).

(** Modelled from the spec: a diff record (section 3). *)
Record DiffRecord := mkDiff {
  kind : StorageLayoutDiffType;
  variableName : string;
  baseVariable : option StorageVariable;
  headVariable : option StorageVariable;
  onChainEvidence : option string
}.

(** A line/column position and a source span. *)
Record Position := mkPos { line : Z; column : Z }.
Record Location := mkLoc { loc_start : Position; loc_end : Position }.

(** The result of [formatDiff]: the fields [_run] reads. *)
Record FormattedDiff := mkFormatted {
  fd_type : StorageLayoutDiffType;
  fd_message : string;
  fd_loc : Location
}.

(** The result of [parseSource]: [_run] reads its [path]; the span of the
    contract and those of its variable declarations are what the location
    resolver of the specification (section 4.4) looks into. *)
Record SourceDefinition := mkSource {
  path : string;
  contractLoc : Location;
  declarations : list (string * Location)
}.

(** One artifact of a listing page: the fields used by the search.
    [head_sha] is [artifact.workflow_run?.head_sha]. *)
Record Artifact := mkArtifact {
  art_id : Z;
  art_name : string;
  expired : bool;
  head_sha : option string
}.

(** One entry of the downloaded archive, with the text [zip.readAsText]
    returns for it. *)
Record ZipEntry := mkEntry {
  entryName : string;
  entryText : string
}.

Definition readAsText (e : ZipEntry) : string := entryText e.

(** ** The configuration: the module-level constants of the script

    The inputs read with [getInput], [context.eventName], and the names
    the script derives from them before [_run] starts ([contractAbs], the
    two report names, [owner/repo]). *)

Record Config := mkConfig {
  baseBranch : string;
  contract : string;
  address : string;
  rpcUrl : string;
  failOnRemoval : bool;
  workingDirectory : string;
  retryDelay : Z;
  contractAbs : string;
  baseReport : string;
  outReport : string;
  repository : string;
  eventName : string
}.

(** The object [getDefaultProvider] returns: a handle on the network
    endpoint it was built from. *)
Record Provider := mkProvider { endpoint : string }.

Definition getDefaultProvider (url : string) : Provider :=
  {| endpoint := url |}.

(** The options object handed to [checkLayouts]. *)
Record CheckOptions := mkOptions {
  opt_address : string;
  opt_provider : option Provider;
  checkRemovals : bool
}.

(** The properties object of an annotation. *)
Record AnnotationProperties := mkProps {
  title : option string;
  file : string;
  startLine : Z;
  endLine : Z;
  startColumn : Z;
  endColumn : Z
}.

(** ** Observable effects *)

Inductive Event :=
  | EStartGroup (name : string)
  | EEndGroup
  | EInfo (msg : string)
  | EDebug (msg : string)
  | EWarning (msg : string) (props : AnnotationProperties)
  | EError (msg : string) (props : AnnotationProperties)
  | ESetFailed (e : JsError)
  | EWriteFile (path content : string)
  | EUploadArtifact (name : string) (files : list string) (root : string)
      (compressionLevel : Z)
  | ENextPage (page : nat)
  | ESleep (ms : Z)
  | EDownloadArtifact (id : Z)
  | EGetStorageAt (provider : Provider) (address : string) (slot : N)
  | EExit (code : Z).

(** An annotation is an [error] or a [warning] call. *)
Definition is_annotation (ev : Event) : bool :=
  match ev with
  | EWarning _ _ | EError _ _ => true
  | _ => false
  end.

(** A read of the deployed contract's storage. *)
Definition is_onchain_read (ev : Event) : bool :=
  match ev with
  | EGetStorageAt _ _ _ => true
  | _ => false
  end.

(** ** The monad of the script *)

Inductive Outcome (A : Type) :=
  | Ok (a : A)
  | Throw (e : JsError)
  | Pending.
Arguments Ok {A} _.
Arguments Throw {A} _.
Arguments Pending {A}.

(** The mutable store: the module-level variables [srcContent] and
    [refCommitHash] (both [undefined] when the script starts) and
    [process.exitCode]. *)
Record Vars := mkVars {
  srcContent : option string;
  refCommitHash : option string;
  exitCode : Z
}.

Definition initial : Vars :=
  {| srcContent := None; refCommitHash := None; exitCode := 0 |}.

(** What running a computation gives: the events it emitted, in order, the
    store it leaves and its outcome. *)
Record Run (A : Type) := mkRun {
  events : list Event;
  final : Vars;
  outcome : Outcome A
}.
Arguments mkRun {A} _ _ _.
Arguments events {A} _.
Arguments final {A} _.
Arguments outcome {A} _.

Definition M (A : Type) : Type := Vars → Run A.

#[global] Instance M_ret : MRet M :=
  λ A a v, mkRun [] v (Ok a).

#[global] Instance M_bind : MBind M :=
  λ A B k m v,
    let r := m v in
    match outcome r with
    | Ok a =>
        let r' := k a (final r) in
        mkRun (events r ++ events r') (final r') (outcome r')
    | Throw e => mkRun (events r) (final r) (Throw e)
    | Pending => mkRun (events r) (final r) Pending
    end.

Definition emit (ev : Event) : M unit :=
  λ v, mkRun [ev] v (Ok tt).

Definition emit_all (evs : list Event) : M unit :=
  λ v, mkRun evs v (Ok tt).

Definition throw {A} (e : JsError) : M A :=
  λ v, mkRun [] v (Throw e).

Definition pending {A} : M A :=
  λ v, mkRun [] v Pending.

(** A helper that returns a value or throws. *)
Definition call {A} (r : JsError + A) : M A :=
  match r with
  | inl e => throw e
  | inr a => mret a
  end.

Definition get_srcContent : M (option string) :=
  λ v, mkRun [] v (Ok (srcContent v)).

Definition set_srcContent (s : string) : M unit :=
  λ v, mkRun [] {| srcContent := Some s; refCommitHash := refCommitHash v;
                   exitCode := exitCode v |} (Ok tt).

Definition get_refCommitHash : M (option string) :=
  λ v, mkRun [] v (Ok (refCommitHash v)).

Definition set_refCommitHash (h : option string) : M unit :=
  λ v, mkRun [] {| srcContent := srcContent v; refCommitHash := h;
                   exitCode := exitCode v |} (Ok tt).

(** The functions of [@actions/core]. *)
Definition startGroup (n : string) : M unit := emit (EStartGroup n).
Definition endGroup : M unit := emit EEndGroup.
Definition info (msg : string) : M unit := emit (EInfo msg).
Definition debug (msg : string) : M unit := emit (EDebug msg).
Definition warning (msg : string) (p : AnnotationProperties) : M unit :=
  emit (EWarning msg p).
Definition error (msg : string) (p : AnnotationProperties) : M unit :=
  emit (EError msg p).

(** [setFailed] sets the exit code of the process to 1 and logs the error. *)
Definition setFailed (e : JsError) : M unit :=
  λ v, mkRun [ESetFailed e]
         {| srcContent := srcContent v; refCommitHash := refCommitHash v;
            exitCode := 1 |} (Ok tt).

(** [process.exit()] ends the process with the current exit code. *)
Definition process_exit : M unit :=
  λ v, mkRun [EExit (exitCode v)] v (Ok tt).

(** [for (const x of xs) body(x)]. *)
Fixpoint for_each {A} (body : A → M unit) (xs : list A) : M unit :=
  match xs with
  | [] => mret tt
  | x :: rest => body x ;; for_each body rest
  end.

(** [xs.map(f)] for a callback with effects. *)
Fixpoint map_M {A B} (f : A → M B) (xs : list A) : M (list B) :=
  match xs with
  | [] => mret []
  | x :: rest => y ← f x; ys ← map_M f rest; mret (y :: ys)
  end.

(** ** The collaborators *)

Record Env := mkEnv {
  (** The [stack] property the runtime gives to [Error(msg)]. *)
  stackOf : string → option string;
  (** [createLayout(contract, workingDirectory)] runs forge. *)
  createLayout : string → string → JsError + string;
  (** [parseLayout(content)]; [None] is the value [undefined]. *)
  parseLayout : option string → JsError + StorageLayout;
  (** [path.resolve] and [path.dirname]. *)
  resolve : string → string;
  dirname : string → string;
  (** The [id] of the response of [artifactClient.uploadArtifact]. *)
  uploadArtifact : string → list string → string → option Z;
  (** The pages of [octokit.paginate.iterator(listArtifactsForRepo)]:
      the [data] of page [i], or [None] once the iterator is done. *)
  listArtifactsForRepo : nat → option (list Artifact);
  (** The entries of the archive [downloadArtifact] returns for an id. *)
  downloadArtifact : Z → list ZipEntry;
  (** [checkLayouts(src, cmp, options)]: the events of its on-chain reads
      and the diffs it resolves to. *)
  checkLayouts :
    StorageLayout → StorageLayout → CheckOptions → list Event * list DiffRecord;
  (** [parseSource(path)]. *)
  parseSource : string → JsError + SourceDefinition;
  (** [formatDiff(cmpDef, diff)]. *)
  formatDiff : SourceDefinition → DiffRecord → JsError + FormattedDiff;
  (** The tables of [./format]. *)
  diffTitles : gmap StorageLayoutDiffType string;
  diffLevels : gmap StorageLayoutDiffType Level
}.

(** A run followed by another, which started from the store the first
    one left. *)
Definition then_run {A B} (r : Run A) (r' : Run B) : Run B :=
  mkRun (events r ++ events r') (final r') (outcome r').

(** [try { body } catch (e) { handler(e) } finally { fin }]: [fin] runs
    whatever [body] and [handler] did, unless one of them is still
    running. *)
Definition try_catch_finally
    (body : M unit) (handler : JsError → M unit) (fin : M unit) : M unit :=
  λ v,
    let r := body v in
    match outcome r with
    | Ok _ => then_run r (fin (final r))
    | Throw e =>
        let h := then_run r (handler e (final r)) in
        match outcome h with
        | Ok _ => then_run h (fin (final h))
        | Throw e' =>
            let f := then_run h (fin (final h)) in
            match outcome f with
            | Ok _ => mkRun (events f) (final f) (Throw e')
            | _ => f
            end
        | Pending => h
        end
    | Pending => mkRun (events r) (final r) Pending
    end.

(** ** The script *)

Section Script.

Variable cfg : Config.
Variable env : Env.

(** [Error(msg)], as the [throw] statements of the script build it. *)
Definition Error (msg : string) : JsError :=
  {| message := msg; stack := stackOf env msg |}.

(** Line 53: [rpcUrl ? getDefaultProvider(rpcUrl) : undefined]. *)
Definition provider : option Provider :=
  if String.eqb (rpcUrl cfg) "" then None
  else Some (getDefaultProvider (rpcUrl cfg)).

(** Lines 59 to 80 of [_run]: generate the head layout, write the report
    and upload it. *)
Definition generateAndUpload : M StorageLayout :=
  startGroup ("Generate storage layout of contract "
              +:+ quoted (contract cfg) +:+ " using foundry forge");;
  info "Start forge process";;
  cmpContent ← call (createLayout env (contract cfg) (workingDirectory cfg));
  info "Parse generated layout";;
  cmpLayout ← call (parseLayout env (Some cmpContent));
  endGroup;;
  let localReportPath := resolve env (outReport cfg) in
  emit (EWriteFile localReportPath cmpContent);;
  startGroup ("Upload new report from " +:+ quoted localReportPath
              +:+ " as artifact named " +:+ quoted (outReport cfg));;
  emit (EUploadArtifact (outReport cfg) [localReportPath]
          (dirname env localReportPath) 9);;
  match uploadArtifact env (outReport cfg) [localReportPath]
          (dirname env localReportPath) with
  | None => throw (Error "Failed to upload storage layout report.")
  | Some id =>
      info ("Artifact " +:+ pretty id
            +:+ " has been successfully uploaded!");;
      endGroup;;
      mret cmpLayout
  end.

(** The callback of [res.data.find] on line 93. *)
Definition is_base_report (artifact : Artifact) : bool :=
  negb (expired artifact) && String.eqb (art_name artifact) (baseReport cfg).

(** Lines 89 to 106: the [for await] loop over the pages of the listing,
    from page [page] on.  Its result is the final value of [artifactId]
    ([None] is [null]). *)
Fixpoint searchArtifact (fuel : nat) (page : nat) : M (option Z) :=
  match fuel with
  | O => pending
  | S fuel' =>
      emit (ENextPage page);;
      match listArtifactsForRepo env page with
      | None => mret None
      | Some data =>
          match find is_base_report data with
          | None =>
              emit (ESleep (retryDelay cfg));;
              searchArtifact fuel' (S page)
          | Some artifact =>
              set_refCommitHash (head_sha artifact);;
              hash ← get_refCommitHash;
              info ("Found artifact named " +:+ quoted (baseReport cfg)
                    +:+ " with ID " +:+ quoted (pretty (art_id artifact))
                    +:+ " from commit " +:+ quoted (show_undefined hash));;
              mret (Some (art_id artifact))
          end
      end
  end.

(** Truthiness of [artifactId] on line 109. *)
Definition truthy_id (artifactId : option Z) : option Z :=
  match artifactId with
  | Some id => if Z.eqb id 0 then None else Some id
  | None => None
  end.

(** Lines 122 to 125: every entry overwrites [srcContent]. *)
Definition loadEntry (entry : ZipEntry) : M unit :=
  info ("Loading storage layout report from " +:+ quoted (entryName entry));;
  set_srcContent (readAsText entry).

(** The error of line 127. *)
Definition notFoundError : JsError :=
  Error ("No workflow run found with an artifact named "
          +:+ quoted (baseReport cfg)).

(** Lines 84 to 131: find the base report, download it and parse it. *)
Definition fetchBase (fuel : nat) : M StorageLayout :=
  startGroup ("Searching artifact " +:+ quoted (baseReport cfg)
              +:+ " on repository " +:+ quoted (repository cfg)
              +:+ ", on branch " +:+ quoted (baseBranch cfg));;
  artifactId ← searchArtifact fuel 0;
  endGroup;;
  match truthy_id artifactId with
  | Some id =>
      startGroup ("Downloading artifact " +:+ quoted (baseReport cfg)
                  +:+ " of repository " +:+ quoted (repository cfg)
                  +:+ " with ID " +:+ quoted (pretty id));;
      emit (EDownloadArtifact id);;
      for_each loadEntry (downloadArtifact env id);;
      endGroup
  | None => throw notFoundError
  end;;
  info "Mapping reference storage layout report";;
  content ← get_srcContent;
  srcLayout ← call (parseLayout env content);
  endGroup;;
  mret srcLayout.

(** The options of the call on lines 134 to 138. *)
Definition checkOptions : CheckOptions :=
  {| opt_address := address cfg;
     opt_provider := provider;
     checkRemovals := failOnRemoval cfg |}.

(** Line 148: [diffLevels[type] || "error"]. *)
Definition level_of (t : StorageLayoutDiffType) : Level :=
  default error_level (diffLevels env !! t).

(** Lines 150 to 155: the properties of the annotation of a diff. *)
Definition annotationProperties (cmpDef : SourceDefinition)
    (formattedDiff : FormattedDiff) : AnnotationProperties :=
  {| title := diffTitles env !! fd_type formattedDiff;
     file := path cmpDef;
     startLine := line (loc_start (fd_loc formattedDiff));
     endLine := line (loc_end (fd_loc formattedDiff));
     startColumn := column (loc_start (fd_loc formattedDiff));
     endColumn := column (loc_end (fd_loc formattedDiff)) |}.

(** Lines 144 to 159: the callback of [diffs.map]. *)
Definition formatAndAnnotate (cmpDef : SourceDefinition) (diff : DiffRecord)
    : M FormattedDiff :=
  formattedDiff ← call (formatDiff env cmpDef diff);
  let level := level_of (fd_type formattedDiff) in
  (if decide (level = error_level) then error else warning)
    (fd_message formattedDiff) (annotationProperties cmpDef formattedDiff);;
  mret formattedDiff.

(** The event that the callback emits for a formatted diff. *)
Definition annotation (cmpDef : SourceDefinition) (fd : FormattedDiff) : Event :=
  if decide (level_of (fd_type fd) = error_level)
  then EError (fd_message fd) (annotationProperties cmpDef fd)
  else EWarning (fd_message fd) (annotationProperties cmpDef fd).

(** Lines 161 to 166: the condition of the final [throw]. *)
Definition unsafeChanges (formattedDiffs : list FormattedDiff) : bool :=
  (0 <? length (filter (λ diff, diffLevels env !! fd_type diff = Some error_level)
                  formattedDiffs))%nat
  || (failOnRemoval cfg
      && (0 <? length (filter (λ diff, fd_type diff = VARIABLE_REMOVED)
                         formattedDiffs))%nat).

Definition unsafeError : JsError :=
  Error "Unsafe storage layout changes detected. Please see above for details.".

(** Lines 133 to 170: diff the two layouts, report and decide. *)
Definition checkAndReport (srcLayout cmpLayout : StorageLayout) : M unit :=
  startGroup "Check storage layout";;
  let result := checkLayouts env srcLayout cmpLayout checkOptions in
  emit_all (fst result);;
  let diffs := snd result in
  (if (0 <? length diffs)%nat then
     info "Parse source code";;
     cmpDef ← call (parseSource env (contractAbs cfg));
     formattedDiffs ← map_M (formatAndAnnotate cmpDef) diffs;
     if unsafeChanges formattedDiffs then throw unsafeError else mret tt
   else mret tt);;
  endGroup.

(** [_run], lines 58 to 171. *)
Definition _run (fuel : nat) : M unit :=
  cmpLayout ← generateAndUpload;
  if String.eqb (eventName cfg) "pull_request" then
    srcLayout ← fetchBase fuel;
    checkAndReport srcLayout cmpLayout
  else mret tt.

(** The [catch] block of [run]. *)
Definition on_error (e : JsError) : M unit :=
  setFailed e;;
  if truthy_string (stack e) then debug (default "" (stack e)) else mret tt.

(** [run], lines 173 to 182. *)
Definition run (fuel : nat) : M unit :=
  try_catch_finally (_run fuel) on_error process_exit.

End Script.

(** ** The diff engine, the severity policy and the location resolver

    [./check] and [./format] are not among the sources; what follows is
    their behaviour as the specification describes it (sections 4.2 to
    4.5). *)

(** Modelled from the spec: [checkLayouts] of [./check] is missing; the
    first pass of the alignment (section 4.2, step 1) looks a head variable
    up in the base layout by name. *)
Definition lookupByName (base : StorageLayout) (n : string)
    : option (nat * StorageVariable) :=
  list_find (λ b, name b = n) base.

(** Modelled from the spec: the diff of a head variable [h] and the base
    variable [b] of the same name (section 4.2, step 1; [checkLayouts] is
    missing): a changed type wins over a changed position. *)
Definition compareMatched (b h : StorageVariable) : list DiffRecord :=
  if decide (typeSignature b = typeSignature h) then
    if decide (slot b = slot h ∧ offset b = offset h) then []
    else [mkDiff SLOT_CHANGED (name h) (Some b) (Some h) None]
  else [mkDiff TYPE_CHANGED (name h) (Some b) (Some h) None].

(** Modelled from the spec: the base indices matched by name in step 1
    ([checkLayouts] is missing). *)
Definition matchedByName (base head : StorageLayout) : list nat :=
  omap (λ h, fst <$> lookupByName base (name h)) head.

(** Modelled from the spec: a base variable is a rename candidate of [h]
    when it sits at the same slot and offset with the same type
    (section 4.2, step 2; [checkLayouts] is missing). *)
Definition samePlaceAndType (b h : StorageVariable) : Prop :=
  slot b = slot h ∧ offset b = offset h ∧ typeSignature b = typeSignature h.

#[global] Instance samePlaceAndType_dec b h : Decision (samePlaceAndType b h).
Proof. unfold samePlaceAndType. apply _. Defined.

(** Modelled from the spec: the unmatched rename candidate of lowest index
    (the tie-break rule of section 4.2; [checkLayouts] is missing).  [i] is
    the index of the first variable of [base] in the whole base layout. *)
Fixpoint findCandidate (consumed : list nat) (h : StorageVariable)
    (base : list StorageVariable) (i : nat) : option (nat * StorageVariable) :=
  match base with
  | [] => None
  | b :: rest =>
      if decide ((i ∉ consumed) ∧ samePlaceAndType b h) then Some (i, b)
      else findCandidate consumed h rest (S i)
  end.

(** Modelled from the spec: the walk over the head layout in declaration
    order (section 4.2; [checkLayouts] is missing).  [consumed] holds the
    base indices matched so far; the result is the diffs of the head
    variables and the base indices matched in the end. *)
Fixpoint alignHead (base : StorageLayout) (consumed : list nat)
    (head : list StorageVariable) : list DiffRecord * list nat :=
  match head with
  | [] => ([], consumed)
  | h :: rest =>
      match lookupByName base (name h) with
      | Some (_, b) =>
          let r := alignHead base consumed rest in
          (compareMatched b h ++ fst r, snd r)
      | None =>
          match findCandidate consumed h base 0 with
          | Some (i, b) =>
              let r := alignHead base (i :: consumed) rest in
              (mkDiff VARIABLE_RENAMED (name h) (Some b) (Some h) None :: fst r,
               snd r)
          | None =>
              let r := alignHead base consumed rest in
              (mkDiff VARIABLE_ADDED (name h) None (Some h) None :: fst r, snd r)
          end
      end
  end.

(** Modelled from the spec: the removals, one per base variable left
    unmatched, in base declaration order ([checkLayouts] is missing).  [i]
    is the index of the first variable of [base]. *)
Fixpoint removals (consumed : list nat) (base : list StorageVariable) (i : nat)
    : list DiffRecord :=
  match base with
  | [] => []
  | b :: rest =>
      if decide (i ∈ consumed) then removals consumed rest (S i)
      else (mkDiff VARIABLE_REMOVED (name b) (Some b) None None)
             :: removals consumed rest (S i)
  end.

Section DiffEngine.

(** The word a provider reads at a slot of a deployed contract; [None]
    when the read fails. *)
Variable getStorageAt : Provider → string → N → option string.

(** Modelled from the spec: [annotateRemoval] (section 4.5; the on-chain
    verifier is missing from the sources): one read of the removed
    variable's slot, attached as evidence; a failed read leaves the
    evidence out. *)
Definition annotateRemoval (d : DiffRecord) (addr : string) (p : Provider)
    : list Event * DiffRecord :=
  match baseVariable d with
  | Some b =>
      ([EGetStorageAt p addr (slot b)],
       mkDiff (kind d) (variableName d) (baseVariable d) (headVariable d)
         (getStorageAt p addr (slot b)))
  | None => ([], d)
  end.

(** Modelled from the spec: the verifier runs on every removal when both
    an address and a provider are supplied (sections 4.5 and 6; missing
    from the sources). *)
Fixpoint annotateRemovals (opts : CheckOptions) (ds : list DiffRecord)
    : list Event * list DiffRecord :=
  match ds with
  | [] => ([], [])
  | d :: rest =>
      let r := annotateRemovals opts rest in
      match opt_provider opts with
      | Some p =>
          if String.eqb (opt_address opts) "" then (fst r, d :: snd r)
          else
            let a := annotateRemoval d (opt_address opts) p in
            (fst a ++ fst r, snd a :: snd r)
      | None => (fst r, d :: snd r)
      end
  end.

(** Modelled from the spec: [checkLayouts] of [./check], which is missing
    from the sources (section 4.2): head diffs in head declaration order,
    then the removals, surfaced only when [checkRemovals] is set. *)
Definition checkLayouts_spec (base head : StorageLayout) (opts : CheckOptions)
    : list Event * list DiffRecord :=
  let aligned := alignHead base (matchedByName base head) head in
  let removed := annotateRemovals opts (removals (snd aligned) base 0) in
  (fst removed,
   fst aligned ++ (if checkRemovals opts then snd removed else [])).

End DiffEngine.

(** Modelled from the spec: the severity table [diffLevels] of [./format],
    which is missing from the sources (section 4.3). *)
Definition diffLevels_spec : gmap StorageLayoutDiffType Level :=
  <[VARIABLE_ADDED := warning_level]>
  (<[VARIABLE_REMOVED := error_level]>
  (<[VARIABLE_RENAMED := warning_level]>
  (<[TYPE_CHANGED := error_level]>
  (<[SLOT_CHANGED := error_level]> ∅)))).

Definition SourceLocationNotFoundError (n : string) : JsError :=
  {| message := "SourceLocationNotFoundError: " +:+ n; stack := None |}.

(** The declaration span recorded for a name. *)
Fixpoint declarationOf (decls : list (string * Location)) (n : string)
    : option Location :=
  match decls with
  | [] => None
  | (m, l) :: rest => if String.eqb m n then Some l else declarationOf rest n
  end.

Section Resolver.

(** The human-readable message of a diff. *)
Variable describe : DiffRecord → string.

(** Modelled from the spec: [formatDiff] of [./format], which is missing
    from the sources (the resolver of section 4.4): the span of the head
    variable's declaration, the contract's span for a pure removal, and
    a fatal error when the head source lacks the declaration. *)
Definition formatDiff_spec (sd : SourceDefinition) (d : DiffRecord)
    : JsError + FormattedDiff :=
  match headVariable d with
  | None => inr (mkFormatted (kind d) (describe d) (contractLoc sd))
  | Some h =>
      match declarationOf (declarations sd) (name h) with
      | Some l => inr (mkFormatted (kind d) (describe d) l)
      | None => inl (SourceLocationNotFoundError (name h))
      end
  end.

End Resolver.

(** ** The phases of a run *)

Section Phases.

Variable cfg : Config.
Variable env : Env.

(** Lines 58 to 131 of [_run], everything that comes before the diff:
    the two layouts when the run goes on to compare them, [None] when it
    returns on line 82. *)
Definition acquireLayouts (fuel : nat)
    : M (option (StorageLayout * StorageLayout)) :=
  cmpLayout ← generateAndUpload cfg env;
  if String.eqb (eventName cfg) "pull_request" then
    srcLayout ← fetchBase cfg env fuel;
    mret (Some (srcLayout, cmpLayout))
  else mret None.

(** What [_run] does with the result of [acquireLayouts]. *)
Definition afterAcquire (r : option (StorageLayout * StorageLayout)) : M unit :=
  match r with
  | Some (srcLayout, cmpLayout) => checkAndReport cfg env srcLayout cmpLayout
  | None => mret tt
  end.

(** The events of the catch and finally blocks of [run] for an error. *)
Definition failure_events (e : JsError) : list Event :=
  ESetFailed e
  :: (if truthy_string (stack e) then [EDebug (default "" (stack e))] else [])
  ++ [EExit 1].

End Phases.

(** The events of the phase before the diff: logging other than
    annotations, the report file, and the traffic with the artifact store. *)
Definition before_check (ev : Event) : bool :=
  match ev with
  | EStartGroup n => negb (String.eqb n "Check storage layout")
  | EEndGroup | EInfo _ | EWriteFile _ _ | EUploadArtifact _ _ _ _
  | ENextPage _ | ESleep _ | EDownloadArtifact _ => true
  | EDebug _ | EWarning _ _ | EError _ _ | ESetFailed _
  | EGetStorageAt _ _ _ | EExit _ => false
  end.

(** A computation that emits only events satisfying [P] and leaves the exit
    code of the process alone. *)
Definition quiet {A} (P : Event → Prop) (m : M A) : Prop :=
  ∀ v, Forall P (events (m v)) ∧ exitCode (final (m v)) = exitCode v.


(** The number of waits (line 95) among the events of a run. *)
Fixpoint waits (evs : list Event) : nat :=
  match evs with
  | [] => 0
  | ESleep _ :: rest => S (waits rest)
  | _ :: rest => waits rest
  end.

(** The log line of one archive entry (line 123). *)
Definition loading_line (entry : ZipEntry) : Event :=
  EInfo ("Loading storage layout report from " +:+ quoted (entryName entry)).

(** ** A worked scenario

    A vault contract whose report for the base branch sits on the second
    page of the artifact listing, in an archive of two entries. *)

Definition owner_var : StorageVariable := mkVar "owner" "address" 20 0 0.
Definition admin_var : StorageVariable := mkVar "admin" "address" 20 0 0.
Definition legacy_var : StorageVariable := mkVar "legacy" "uint256" 32 1 0.
Definition balance256_var : StorageVariable := mkVar "balance" "uint256" 32 2 0.
Definition balance128_var : StorageVariable := mkVar "balance" "uint128" 16 2 0.

Definition demo_config (event : string) (removal : bool) (addr url : string)
    : Config :=
  {| baseBranch := "main";
     contract := "src/Vault.sol";
     address := addr;
     rpcUrl := url;
     failOnRemoval := removal;
     workingDirectory := ".";
     retryDelay := 5000;
     contractAbs := "src/Vault.sol";
     baseReport := "main.Vault-0a1b2c3d.json";
     outReport := "feature.Vault-0a1b2c3d.json";
     repository := "acme/vault";
     eventName := event |}.

Definition demo_span (l : Z) : Location :=
  mkLoc (mkPos l 4) (mkPos l 30).

Definition demo_source : SourceDefinition :=
  {| path := "src/Vault.sol";
     contractLoc := mkLoc (mkPos 5 0) (mkPos 40 1);
     declarations :=
       [("owner", demo_span 6); ("admin", demo_span 6);
        ("balance", demo_span 8)] |}.

(** A listing of two pages; the report of the base branch is the last
    artifact of the second page, after an expired one of the same name. *)
Definition demo_pages (i : nat) : option (list Artifact) :=
  match i with
  | 0%nat => Some [mkArtifact 40 "feature.Vault-0a1b2c3d.json" false None]
  | 1%nat => Some [mkArtifact 41 "main.Vault-0a1b2c3d.json" true (Some "c0ffee");
                   mkArtifact 42 "main.Vault-0a1b2c3d.json" false (Some "beef01")]
  | _ => None
  end.

(** A listing of two pages without a usable report of the base branch. *)
Definition stale_pages (i : nat) : option (list Artifact) :=
  match i with
  | 0%nat => Some [mkArtifact 40 "feature.Vault-0a1b2c3d.json" false None]
  | 1%nat => Some [mkArtifact 41 "main.Vault-0a1b2c3d.json" true (Some "c0ffee")]
  | _ => None
  end.

Definition demo_chain (p : Provider) (addr : string) (s : N) : option string :=
  Some "0x01".

Definition demo_env (pages : nat → option (list Artifact))
    (levels : gmap StorageLayoutDiffType Level)
    (base head : StorageLayout) : Env :=
  {| stackOf := λ msg, Some ("Error: " +:+ msg);
     createLayout := λ _ _, inr "HEAD";
     parseLayout := λ content,
       match content with
       | Some "HEAD" => inr head
       | Some "BASE" => inr base
       | _ => inl (mkJsError "Unexpected end of JSON input"
                     (Some "SyntaxError: Unexpected end of JSON input"))
       end;
     resolve := λ p, "/work/" +:+ p;
     dirname := λ _, "/work";
     uploadArtifact := λ _ _ _, Some 7;
     listArtifactsForRepo := pages;
     downloadArtifact := λ _,
       [mkEntry "stale.json" "STALE"; mkEntry "main.Vault-0a1b2c3d.json" "BASE"];
     checkLayouts := checkLayouts_spec demo_chain;
     parseSource := λ _, inr demo_source;
     formatDiff := formatDiff_spec variableName;
     diffTitles := {[TYPE_CHANGED := "Variable type changed"]};
     diffLevels := levels |}.

(** The severity table without an entry for removals. *)
Definition levels_without_removal : gmap StorageLayoutDiffType Level :=
  delete VARIABLE_REMOVED diffLevels_spec.

(** The contract's declaration span as a formatted removal of [legacy]. *)
Definition legacy_removed : FormattedDiff :=
  mkFormatted VARIABLE_REMOVED "legacy" (contractLoc demo_source).

Definition balance_retyped : FormattedDiff :=
  mkFormatted TYPE_CHANGED "balance" (demo_span 8).

(** The scenario with an archive whose last entry is not a layout. *)
Definition corrupt_env : Env :=
  let good := demo_env demo_pages diffLevels_spec [owner_var] [owner_var] in
  mkEnv (stackOf good) (createLayout good) (parseLayout good) (resolve good) (dirname good)
    (uploadArtifact good) (listArtifactsForRepo good)
    (λ _, [mkEntry "main.Vault-0a1b2c3d.json" "BASE"; mkEntry "notes.txt" "NOTES"])
    (checkLayouts good) (parseSource good) (formatDiff good)
    (diffTitles good) (diffLevels good).


(** ** The escaped name of the contract (lines 35 to 40)

    The script derives the escaped name of the contract from the inputs
    before [_run] starts.  [path.join], [path.basename] and the SHA-256
    digest of [crypto] are library functions and are parameters here; a
    string is the sequence of its code units.  The regular expression of
    [getReportPath] on line 43 is not terminated in the file as it stands
    (its backslash escapes the closing bracket), so [getReportPath] has no
    model: the two report names stay the fields [baseReport] and
    [outReport] of the configuration. *)

(** Every character of a string satisfies a test. *)
Fixpoint string_forall (p : ascii → bool) (s : string) : bool :=
  match s with
  | EmptyString => true
  | String c rest => p c && string_forall p rest
  end.

(** [s.replace(/[...]/g, r)] for a character class and a one-character
    replacement: every character of the class becomes [r]. *)
Fixpoint replace_class (in_class : ascii → bool) (r : ascii) (s : string)
    : string :=
  match s with
  | EmptyString => EmptyString
  | String c rest =>
      String (if in_class c then r else c) (replace_class in_class r rest)
  end.

(** A character range [lo-hi] of a class. *)
Definition in_range (lo hi c : ascii) : bool :=
  (nat_of_ascii lo <=? nat_of_ascii c)%nat
  && (nat_of_ascii c <=? nat_of_ascii hi)%nat.

(** The characters that the class [[^a-zA-Z0-9-_]] of line 39 leaves
    alone. *)
Definition name_char (c : ascii) : bool :=
  in_range "a" "z" c || in_range "A" "Z" c || in_range "0" "9" c
  || Ascii.eqb c "-" || Ascii.eqb c "_".

(** A digit of a lower-case hexadecimal digest. *)
Definition hex_char (c : ascii) : bool :=
  in_range "0" "9" c || in_range "a" "f" c.

Module Names.

Section Constants.

Variable join : string → string → string.
Variable basename : string → string → string.
Variable sha256_hex : string → string.
Variables workingDirectory contract : string.

(** Line 35. *)
Definition contractAbs : string := join workingDirectory contract.

(** Line 38: the first eight characters of the digest. *)
Definition hash : string := String.substring 0 8 (sha256_hex contractAbs).

(** Line 39. *)
Definition baseName : string :=
  replace_class (λ c, negb (name_char c)) "_" (basename contract ".sol").

(** Line 40. *)
Definition contractEscaped : string := baseName +:+ "-" +:+ hash.

End Constants.

End Names.

(** ** More scenarios *)

(** A digest function for the scenarios: a fixed hexadecimal string. *)
Definition demo_digest (s : string) : string :=
  "0a1b2c3d4e5f60718293a4b5c6d7e8f90a1b2c3d4e5f60718293a4b5c6d7e8f9".

(** The last component of a path, without a given extension, for paths of
    the shape of the scenarios. *)
Definition demo_basename (p ext : string) : string :=
  if String.eqb p "src/Vault.sol" then "Vault"
  else if String.eqb p "src/My Vault (v2).sol" then "My Vault (v2)"
  else p.

(** The log groups that a sequence of events leaves open: the groups
    opened ([startGroup]) less the groups closed ([endGroup]). *)
Fixpoint net_groups (evs : list Event) : Z :=
  match evs with
  | [] => 0
  | EStartGroup _ :: rest => net_groups rest + 1
  | EEndGroup :: rest => net_groups rest - 1
  | _ :: rest => net_groups rest
  end.

Definition is_group (ev : Event) : bool :=
  match ev with
  | EStartGroup _ | EEndGroup => true
  | _ => false
  end.

(** A computation that, whenever it returns, has left [d] groups open. *)
Definition leaves_open {A} (d : Z) (m : M A) : Prop :=
  ∀ v a, outcome (m v) = Ok a → net_groups (events (m v)) = d.

(** A listing whose usable report has the id 0. *)
Definition zero_pages (i : nat) : option (list Artifact) :=
  match i with
  | 0%nat => Some [mkArtifact 0 "main.Vault-0a1b2c3d.json" false (Some "beef01")]
  | _ => None
  end.

(** The scenario with another field of the environment replaced. *)
Definition with_upload (env : Env) (response : option Z) : Env :=
  mkEnv (stackOf env) (createLayout env) (parseLayout env) (resolve env)
    (dirname env) (λ _ _ _, response) (listArtifactsForRepo env)
    (downloadArtifact env) (checkLayouts env) (parseSource env)
    (formatDiff env) (diffTitles env) (diffLevels env).

Definition with_archive (env : Env) (entries : list ZipEntry) : Env :=
  mkEnv (stackOf env) (createLayout env) (parseLayout env) (resolve env)
    (dirname env) (uploadArtifact env) (listArtifactsForRepo env)
    (λ _, entries) (checkLayouts env) (parseSource env)
    (formatDiff env) (diffTitles env) (diffLevels env).

Definition with_source (env : Env) (r : JsError + SourceDefinition) : Env :=
  mkEnv (stackOf env) (createLayout env) (parseLayout env) (resolve env)
    (dirname env) (uploadArtifact env) (listArtifactsForRepo env)
    (downloadArtifact env) (checkLayouts env) (λ _, r)
    (formatDiff env) (diffTitles env) (diffLevels env).

(** A variable that the source of the scenario does not declare. *)
Definition fresh_var : StorageVariable := mkVar "fresh" "bool" 1 3 0.

(** * Properties *)

(** Decimal printing is by well-founded recursion: it is left folded when
    a proof simplifies. *)
#[local] Arguments pretty : simpl never.

(** ** Running a computation *)

Lemma bind_ok {A B} (m : M A) (k : A → M B) v evs v1 a :
  m v = mkRun evs v1 (Ok a) →
  (m ≫= k) v = mkRun (evs ++ events (k a v1)) (final (k a v1)) (outcome (k a v1)).
Proof. intros H. unfold mbind, M_bind. rewrite H. reflexivity. Qed.

Lemma bind_throw {A B} (m : M A) (k : A → M B) v evs v1 e :
  m v = mkRun evs v1 (Throw e) →
  (m ≫= k) v = mkRun evs v1 (Throw e).
Proof. intros H. unfold mbind, M_bind. rewrite H. reflexivity. Qed.

Lemma bind_pending {A B} (m : M A) (k : A → M B) v evs v1 :
  m v = mkRun evs v1 Pending →
  (m ≫= k) v = mkRun evs v1 Pending.
Proof. intros H. unfold mbind, M_bind. rewrite H. reflexivity. Qed.

Lemma bind_then {A B} (m : M A) (k : A → M B) v evs v1 a :
  m v = mkRun evs v1 (Ok a) →
  (m ≫= k) v = then_run (mkRun evs v1 (Ok tt)) (k a v1).
Proof. intros H. unfold mbind, M_bind. rewrite H. reflexivity. Qed.

Ltac mstep :=
  erewrite bind_then
    by (cbv beta delta [startGroup endGroup info debug emit emit_all
                        get_srcContent set_srcContent get_refCommitHash
                        set_refCommitHash call throw mret M_ret];
        cbv beta iota; reflexivity).

Ltac mdone :=
  cbv beta delta [then_run startGroup endGroup info debug emit emit_all
                  get_srcContent set_srcContent get_refCommitHash
                  set_refCommitHash call throw mret M_ret];
  cbn [events final outcome app];
  repeat (progress (rewrite <- ?app_assoc; cbn [app]));
  rewrite ?app_nil_r; try reflexivity.

Lemma filter_nonempty {A} (P : A → Prop) `{!∀ x, Decision (P x)} (l : list A) :
  (0 <? length (filter P l))%nat = true ↔ ∃ x, x ∈ l ∧ P x.
Proof.
  rewrite Nat.ltb_lt. split.
  - intros Hlen. destruct (filter P l) as [|x l'] eqn:E; [simpl in Hlen; lia|].
    exists x. apply and_comm, (list_elem_of_filter P). rewrite E. left.
  - intros (x & Hin & HP).
    assert (x ∈ filter P l) as Hx by (apply list_elem_of_filter; done).
    destruct (filter P l); [inversion Hx | simpl; lia].
Qed.

Lemma unsafeChanges_iff cfg env fds :
  unsafeChanges cfg env fds = true ↔
    (∃ d, d ∈ fds ∧ diffLevels env !! fd_type d = Some error_level)
    ∨ (failOnRemoval cfg = true ∧ ∃ d, d ∈ fds ∧ fd_type d = VARIABLE_REMOVED).
Proof.
  unfold unsafeChanges.
  rewrite orb_true_iff, andb_true_iff, !filter_nonempty. done.
Qed.

Lemma formatAndAnnotate_ok env sd d fd v :
  formatDiff env sd d = inr fd →
  formatAndAnnotate env sd d v = mkRun [annotation env sd fd] v (Ok fd).
Proof.
  intros H. unfold formatAndAnnotate, annotation, mbind, M_bind.
  rewrite H. cbn. by destruct (decide _).
Qed.

Lemma formatAndAnnotate_throw env sd d e v :
  formatDiff env sd d = inl e →
  formatAndAnnotate env sd d v = mkRun [] v (Throw e).
Proof. intros H. unfold formatAndAnnotate, mbind, M_bind. by rewrite H. Qed.

Lemma formatAll_ok env sd diffs fds v :
  Forall2 (λ d fd, formatDiff env sd d = inr fd) diffs fds →
  map_M (formatAndAnnotate env sd) diffs v
  = mkRun (annotation env sd <$> fds) v (Ok fds).
Proof.
  intros H. revert v. induction H as [|d fd ds fs Hd _ IH]; intros v.
  - reflexivity.
  - simpl. erewrite bind_ok by (by apply formatAndAnnotate_ok).
    erewrite bind_ok by apply IH. cbn. by rewrite app_nil_r.
Qed.

Lemma formatAll_throw env sd ds1 fds1 d e ds2 v :
  Forall2 (λ d fd, formatDiff env sd d = inr fd) ds1 fds1 →
  formatDiff env sd d = inl e →
  map_M (formatAndAnnotate env sd) (ds1 ++ d :: ds2) v
  = mkRun (annotation env sd <$> fds1) v (Throw e).
Proof.
  intros H He. revert v. induction H as [|d1 fd ds fs Hd _ IH]; intros v.
  - simpl. by erewrite bind_throw by (by apply formatAndAnnotate_throw).
  - simpl. erewrite bind_ok by (by apply formatAndAnnotate_ok).
    erewrite bind_throw by apply IH. reflexivity.
Qed.

(** ** Events and exit code of the phase before the diff *)

Lemma quiet_ret {A} P (a : A) : quiet P (mret a).
Proof. intros v. by split; [constructor|]. Qed.

Lemma quiet_bind {A B} P (m : M A) (k : A → M B) :
  quiet P m → (∀ a, quiet P (k a)) → quiet P (m ≫= k).
Proof.
  intros Hm Hk v. destruct (Hm v) as [He Hc].
  unfold mbind, M_bind. destruct (outcome (m v)) as [a| |]; cbn; [|done..].
  destruct (Hk a (final (m v))) as [He' Hc'].
  split; [by apply Forall_app | congruence].
Qed.

Lemma quiet_emit P ev : P ev → quiet P (emit ev).
Proof. intros H v. split; [by repeat constructor | done]. Qed.

Lemma quiet_throw {A} P e : quiet P (@throw A e).
Proof. intros v. by split; [constructor|]. Qed.

Lemma quiet_pending {A} P : quiet P (@pending A).
Proof. intros v. by split; [constructor|]. Qed.

Lemma quiet_call {A} P (r : JsError + A) : quiet P (call r).
Proof. destruct r; [apply quiet_throw | apply quiet_ret]. Qed.

Lemma quiet_vars {A} P (m : M A) :
  (∀ v, events (m v) = [] ∧ exitCode (final (m v)) = exitCode v) → quiet P m.
Proof. intros H v. destruct (H v) as [-> ?]. by split; [constructor|]. Qed.

Lemma quiet_for_each {A} P (body : A → M unit) xs :
  (∀ x, quiet P (body x)) → quiet P (for_each body xs).
Proof.
  intros H. induction xs as [|x xs IH]; simpl.
  - apply quiet_ret.
  - apply quiet_bind; [apply H | by intros _].
Qed.

Ltac quiet_step :=
  first
    [ apply quiet_bind; [|intros ?]
    | apply quiet_ret | apply quiet_throw | apply quiet_pending | apply quiet_call
    | apply quiet_emit; reflexivity
    | apply quiet_vars; intros ?; split; reflexivity ].

Lemma quiet_searchArtifact cfg env fuel page :
  quiet (λ ev, before_check ev = true) (searchArtifact cfg env fuel page).
Proof.
  revert page. induction fuel as [|fuel IH]; intros page; simpl.
  - apply quiet_pending.
  - quiet_step; [unfold emit; quiet_step|].
    destruct (listArtifactsForRepo env page) as [data|]; [|quiet_step].
    destruct (find _ data) as [artifact|].
    + repeat quiet_step.
    + quiet_step; [quiet_step | apply IH].
Qed.

Lemma quiet_generateAndUpload cfg env :
  quiet (λ ev, before_check ev = true) (generateAndUpload cfg env).
Proof.
  unfold generateAndUpload, startGroup, endGroup, info.
  repeat quiet_step.
  destruct (uploadArtifact _ _ _ _); repeat quiet_step.
Qed.

Lemma quiet_fetchBase cfg env fuel :
  quiet (λ ev, before_check ev = true) (fetchBase cfg env fuel).
Proof.
  unfold fetchBase, startGroup, endGroup, info.
  repeat quiet_step.
  - apply quiet_searchArtifact.
  - destruct (truthy_id _); repeat quiet_step.
    apply quiet_for_each. intros x. unfold loadEntry, info. repeat quiet_step.
Qed.

Lemma quiet_acquireLayouts cfg env fuel :
  quiet (λ ev, before_check ev = true) (acquireLayouts cfg env fuel).
Proof.
  unfold acquireLayouts.
  quiet_step; [apply quiet_generateAndUpload|].
  destruct (String.eqb _ _); [|quiet_step].
  quiet_step; [apply quiet_fetchBase | quiet_step].
Qed.

(** ** [_run] and [run] in terms of the phases *)

Lemma bind_assoc_run {A B C} (m : M A) (k : A → M B) (k' : B → M C) v :
  ((m ≫= k) ≫= k') v = (m ≫= (λ a, k a ≫= k')) v.
Proof.
  unfold mbind, M_bind.
  destruct (outcome (m v)) as [a| |]; cbn; [|done..].
  destruct (outcome (k a (final (m v)))) as [b| |]; cbn; [|done..].
  by rewrite app_assoc.
Qed.

Lemma bind_ext_run {A B} (m : M A) (k k' : A → M B) v :
  (∀ a v', k a v' = k' a v') → (m ≫= k) v = (m ≫= k') v.
Proof.
  intros H. unfold mbind, M_bind.
  destruct (outcome (m v)); [by rewrite H | done..].
Qed.

Lemma ret_bind_run {A B} (a : A) (k : A → M B) v :
  (mret a ≫= k) v = k a v.
Proof. unfold mbind, M_bind, mret, M_ret. cbn. by destruct (k a v). Qed.

Lemma _run_split cfg env fuel v :
  _run cfg env fuel v = (acquireLayouts cfg env fuel ≫= afterAcquire cfg env) v.
Proof.
  unfold _run, acquireLayouts. rewrite bind_assoc_run.
  apply bind_ext_run. intros cmp v'.
  destruct (String.eqb _ _).
  - rewrite bind_assoc_run. apply bind_ext_run. intros src v''.
    by rewrite ret_bind_run.
  - by rewrite ret_bind_run.
Qed.

Lemma run_of_ok cfg env fuel v evs v1 :
  _run cfg env fuel v = mkRun evs v1 (Ok tt) →
  run cfg env fuel v = mkRun (evs ++ [EExit (exitCode v1)]) v1 (Ok tt).
Proof. intros H. unfold run, try_catch_finally. rewrite H. reflexivity. Qed.

Lemma run_of_throw cfg env fuel v evs v1 e :
  _run cfg env fuel v = mkRun evs v1 (Throw e) →
  run cfg env fuel v
  = mkRun (evs ++ failure_events e)
      {| srcContent := srcContent v1; refCommitHash := refCommitHash v1;
         exitCode := 1 |} (Ok tt).
Proof.
  intros H. unfold run, try_catch_finally, failure_events. rewrite H. cbn.
  unfold on_error, mbind, M_bind. cbn.
  destruct (truthy_string (stack e)); cbn;
    unfold then_run, process_exit; cbn; by rewrite <- app_assoc.
Qed.

Lemma run_of_pending cfg env fuel v evs v1 :
  _run cfg env fuel v = mkRun evs v1 Pending →
  run cfg env fuel v = mkRun evs v1 Pending.
Proof. intros H. unfold run, try_catch_finally. rewrite H. reflexivity. Qed.

(** ** The check itself *)

Lemma checkAndReport_no_diff cfg env src cmp v :
  snd (checkLayouts env src cmp (checkOptions cfg)) = [] →
  checkAndReport cfg env src cmp v
  = mkRun (EStartGroup "Check storage layout"
             :: fst (checkLayouts env src cmp (checkOptions cfg)) ++ [EEndGroup])
      v (Ok tt).
Proof.
  intros H. unfold checkAndReport, mbind, M_bind. rewrite H. reflexivity.
Qed.

Lemma checkAndReport_parse_throw cfg env src cmp v e :
  snd (checkLayouts env src cmp (checkOptions cfg)) ≠ [] →
  parseSource env (contractAbs cfg) = inl e →
  checkAndReport cfg env src cmp v
  = mkRun (EStartGroup "Check storage layout"
             :: fst (checkLayouts env src cmp (checkOptions cfg))
             ++ [EInfo "Parse source code"])
      v (Throw e).
Proof.
  intros Hne Hsd. unfold checkAndReport, mbind, M_bind.
  destruct (snd _) as [|d ds]; [done|]. cbn. rewrite Hsd. cbn.
  by rewrite ?app_nil_r.
Qed.

Lemma checkAndReport_formatted cfg env src cmp v sd fds :
  snd (checkLayouts env src cmp (checkOptions cfg)) ≠ [] →
  parseSource env (contractAbs cfg) = inr sd →
  Forall2 (λ d fd, formatDiff env sd d = inr fd)
    (snd (checkLayouts env src cmp (checkOptions cfg))) fds →
  checkAndReport cfg env src cmp v
  = mkRun (EStartGroup "Check storage layout"
             :: fst (checkLayouts env src cmp (checkOptions cfg))
             ++ EInfo "Parse source code"
             :: (annotation env sd <$> fds)
             ++ (if unsafeChanges cfg env fds then [] else [EEndGroup]))
      v (if unsafeChanges cfg env fds
         then Throw (unsafeError env) else Ok tt).
Proof.
  intros Hne Hsd Hfmt. unfold checkAndReport.
  erewrite bind_ok by reflexivity.
  erewrite bind_ok by reflexivity. cbn [events final outcome emit_all].
  destruct (snd _) as [|d ds] eqn:E; [done|].
  cbn [length Nat.ltb Nat.leb].
  assert ((info "Parse source code"
           ≫= (λ _, call (parseSource env (contractAbs cfg))
           ≫= (λ cmpDef, map_M (formatAndAnnotate env cmpDef) (d :: ds)
           ≫= (λ formattedDiffs,
                 if unsafeChanges cfg env formattedDiffs
                 then throw (unsafeError env) else mret ())))) v
          = mkRun (EInfo "Parse source code" :: (annotation env sd <$> fds)) v
              (if unsafeChanges cfg env fds
               then Throw (unsafeError env) else Ok tt))
    as Hbody.
  { erewrite bind_ok by reflexivity. rewrite Hsd.
    erewrite bind_ok by reflexivity.
    erewrite bind_ok by (by apply formatAll_ok).
    destruct (unsafeChanges cfg env fds); cbn; by rewrite app_nil_r. }
  destruct (unsafeChanges cfg env fds).
  - erewrite bind_throw by exact Hbody. cbn. by rewrite app_nil_r.
  - erewrite bind_ok by exact Hbody. cbn. by rewrite <- ?app_assoc.
Qed.

Lemma checkAndReport_format_throw cfg env src cmp v sd ds1 fds1 d e ds2 :
  snd (checkLayouts env src cmp (checkOptions cfg)) = ds1 ++ d :: ds2 →
  parseSource env (contractAbs cfg) = inr sd →
  Forall2 (λ d fd, formatDiff env sd d = inr fd) ds1 fds1 →
  formatDiff env sd d = inl e →
  checkAndReport cfg env src cmp v
  = mkRun (EStartGroup "Check storage layout"
             :: fst (checkLayouts env src cmp (checkOptions cfg))
             ++ EInfo "Parse source code" :: (annotation env sd <$> fds1))
      v (Throw e).
Proof.
  intros Hds Hsd Hfmt He. unfold checkAndReport.
  erewrite bind_ok by reflexivity.
  erewrite bind_ok by reflexivity. cbn [events final outcome emit_all].
  rewrite Hds.
  replace (0 <? length (ds1 ++ d :: ds2))%nat with true
    by (symmetry; apply Nat.ltb_lt; rewrite length_app; simpl; lia).
  erewrite bind_throw.
  2:{ erewrite bind_ok by reflexivity. rewrite Hsd.
      erewrite bind_ok by reflexivity.
      erewrite bind_throw by (by eapply formatAll_throw). reflexivity. }
  reflexivity.
Qed.

(** Formatting the diffs one by one either succeeds for all of them or
    stops at the first that fails. *)
Lemma format_all_or_first_failure env sd (diffs : list DiffRecord) :
  (∃ fds, Forall2 (λ d fd, formatDiff env sd d = inr fd) diffs fds)
  ∨ (∃ ds1 fds1 d e ds2,
       diffs = ds1 ++ d :: ds2
       ∧ Forall2 (λ d fd, formatDiff env sd d = inr fd) ds1 fds1
       ∧ formatDiff env sd d = inl e).
Proof.
  induction diffs as [|d ds IH].
  - left. exists []. constructor.
  - destruct (formatDiff env sd d) as [e|fd] eqn:Hd.
    + right. exists [], [], d, e, ds. by repeat split; [constructor|].
    + destruct IH as [[fds H]|(ds1 & fds1 & d' & e & ds2 & -> & H & He)].
      * left. exists (fd :: fds). by constructor.
      * right. exists (d :: ds1), (fd :: fds1), d', e, ds2.
        by repeat split; [constructor|].
Qed.

Lemma reach_check cfg env fuel v0 evs v src cmp :
  acquireLayouts cfg env fuel v0 = mkRun evs v (Ok (Some (src, cmp))) →
  _run cfg env fuel v0
  = then_run (mkRun evs v (Ok tt)) (checkAndReport cfg env src cmp v).
Proof.
  intros H. rewrite _run_split. erewrite bind_ok by exact H. reflexivity.
Qed.

Lemma acquire_keeps_exit_code cfg env fuel evs v r :
  acquireLayouts cfg env fuel initial = mkRun evs v r →
  exitCode v = 0 ∧ Forall (λ ev, before_check ev = true) evs.
Proof.
  intros H. destruct (quiet_acquireLayouts cfg env fuel initial) as [He Hc].
  rewrite H in He, Hc. done.
Qed.

(** ** The pass/fail decision *)

(** C1. Once the run has reached the check and the diffs are formatted,
    [_run] throws the unsafe-layout error if and only if some formatted
    diff has a kind that the table [diffLevels] maps to the error level,
    or [failOnRemoval] is set and some formatted diff is a
    [VARIABLE_REMOVED]; otherwise [_run] returns normally (in particular
    when there is no diff at all).  [run] then ends the process with exit
    code 1 in the first case and 0 in the second. *)
Theorem check_fails_iff_unsafe cfg env fuel evs v src cmp sd fds :
  acquireLayouts cfg env fuel initial = mkRun evs v (Ok (Some (src, cmp))) →
  (snd (checkLayouts env src cmp (checkOptions cfg)) ≠ [] →
   parseSource env (contractAbs cfg) = inr sd) →
  Forall2 (λ d fd, formatDiff env sd d = inr fd)
    (snd (checkLayouts env src cmp (checkOptions cfg))) fds →
  let unsafe :=
    (∃ d, d ∈ fds ∧ diffLevels env !! fd_type d = Some error_level)
    ∨ (failOnRemoval cfg = true ∧ ∃ d, d ∈ fds ∧ fd_type d = VARIABLE_REMOVED) in
  (outcome (_run cfg env fuel initial) = Throw (unsafeError env) ↔ unsafe)
  ∧ (¬ unsafe → outcome (_run cfg env fuel initial) = Ok tt)
  ∧ (unsafe → ∃ evs',
       events (run cfg env fuel initial)
       = evs' ++ failure_events (unsafeError env))
  ∧ (¬ unsafe → ∃ evs',
       events (run cfg env fuel initial) = evs' ++ [EExit 0]).
Proof.
  intros Hacq Hsd Hfmt unsafe.
  pose proof (reach_check _ _ _ _ _ _ _ _ Hacq) as Hrun.
  destruct (acquire_keeps_exit_code _ _ _ _ _ _ Hacq) as [Hcode _].
  assert (checkAndReport cfg env src cmp v
          = mkRun (events (checkAndReport cfg env src cmp v)) v
              (if unsafeChanges cfg env fds
               then Throw (unsafeError env) else Ok tt))
    as Hcheck.
  { destruct (snd (checkLayouts env src cmp (checkOptions cfg))) eqn:E.
    - inversion Hfmt; subst.
      rewrite (checkAndReport_no_diff _ _ _ _ _ E).
      unfold unsafeChanges. cbn. by rewrite andb_false_r.
    - rewrite (checkAndReport_formatted cfg env src cmp v sd fds);
        [reflexivity | by rewrite E | by apply Hsd | by rewrite E]. }
  rewrite Hcheck in Hrun. unfold then_run in Hrun. cbn in Hrun.
  pose proof (unsafeChanges_iff cfg env fds) as Hiff. fold unsafe in Hiff.
  destruct (unsafeChanges cfg env fds).
  - assert unsafe as Hu by by apply Hiff.
    rewrite Hrun. cbn. repeat split; try done.
    intros _. erewrite run_of_throw by exact Hrun. cbn. eauto.
  - assert (¬ unsafe) as Hu by (intros Hu; by apply Hiff in Hu).
    rewrite Hrun. cbn. repeat split; try done.
    intros _. erewrite run_of_ok by exact Hrun. cbn. rewrite Hcode. eauto.
Qed.

Lemma check_fails_iff_unsafe_witness :
  let cfg := demo_config "pull_request" false "" "" in
  let env := demo_env demo_pages diffLevels_spec [balance256_var] [balance128_var] in
  outcome (_run cfg env 3 initial) = Throw (unsafeError env)
  ↔ (∃ d, d ∈ [mkFormatted TYPE_CHANGED "balance" (demo_span 8)]
          ∧ diffLevels env !! fd_type d = Some error_level)
    ∨ (failOnRemoval cfg = true
       ∧ ∃ d, d ∈ [mkFormatted TYPE_CHANGED "balance" (demo_span 8)]
              ∧ fd_type d = VARIABLE_REMOVED).
Proof.
  intros cfg env.
  refine (proj1 (check_fails_iff_unsafe cfg env 3 _ _ [balance256_var]
            [balance128_var] demo_source _ _ _ _)).
  - vm_compute. reflexivity.
  - intros _. reflexivity.
  - vm_compute. repeat constructor.
Defined.



(** C8, as amended.  A formatted diff whose kind has no entry in
    [diffLevels] is annotated with [error], and the first half of the
    failure condition does not count it; on its own it fails the run
    exactly when [failOnRemoval] is set and its kind is
    [VARIABLE_REMOVED], through the second half of the condition. *)
Theorem unmapped_kind_annotated_as_error cfg env sd fd :
  diffLevels env !! fd_type fd = None →
  level_of env (fd_type fd) = error_level
  ∧ annotation env sd fd
    = EError (fd_message fd)
        (annotationProperties env sd fd)
  ∧ (unsafeChanges cfg env [fd] = true
     ↔ failOnRemoval cfg = true ∧ fd_type fd = VARIABLE_REMOVED).
Proof.
  intros Hnone.
  assert (level_of env (fd_type fd) = error_level) as Hlevel
    by (unfold level_of; by rewrite Hnone).
  split; [done|]. split.
  - unfold annotation. rewrite Hlevel. by destruct (decide _).
  - rewrite unsafeChanges_iff. split.
    + intros [(d & Hd & Hlv)|(Hf & d & Hd & Hk)].
      * apply list_elem_of_singleton in Hd as ->. congruence.
      * apply list_elem_of_singleton in Hd as ->. done.
    + intros [Hf Hk]. right. split; [done|]. exists fd.
      split; [apply list_elem_of_singleton|]; done.
Qed.

Lemma unmapped_kind_annotated_as_error_witness :
  level_of (demo_env demo_pages levels_without_removal [owner_var; legacy_var]
              [owner_var]) VARIABLE_REMOVED = error_level
  ∧ (unsafeChanges (demo_config "pull_request" false "" "")
       (demo_env demo_pages levels_without_removal [owner_var; legacy_var]
          [owner_var]) [legacy_removed] = true
     ↔ false = true ∧ VARIABLE_REMOVED = VARIABLE_REMOVED).
Proof.
  pose proof (unmapped_kind_annotated_as_error
                (demo_config "pull_request" false "" "")
                (demo_env demo_pages levels_without_removal
                   [owner_var; legacy_var] [owner_var])
                demo_source legacy_removed) as H.
  destruct H as (Hl & _ & Hu).
  - vm_compute. reflexivity.
  - split; [exact Hl | exact Hu].
Defined.

(** C8, the claim as first stated fails: with [failOnRemoval] set, a
    removal whose kind the table does not list is the only diff of the
    run, and the run throws the unsafe-layout error. *)
Lemma unmapped_removal_fails_run :
  diffLevels (demo_env demo_pages levels_without_removal
                [owner_var; legacy_var] [owner_var]) !! VARIABLE_REMOVED = None
  ∧ unsafeChanges (demo_config "pull_request" true "" "")
      (demo_env demo_pages levels_without_removal [owner_var; legacy_var]
         [owner_var]) [legacy_removed] = true
  ∧ outcome (_run (demo_config "pull_request" true "" "")
               (demo_env demo_pages levels_without_removal
                  [owner_var; legacy_var] [owner_var]) 3 initial)
    = Throw (unsafeError
               (demo_env demo_pages levels_without_removal
                  [owner_var; legacy_var] [owner_var]))
  ∧ filter (λ ev, is_annotation ev = true)
      (events (_run (demo_config "pull_request" true "" "")
                 (demo_env demo_pages levels_without_removal
                    [owner_var; legacy_var] [owner_var]) 3 initial))
    = [EError "legacy" (mkProps None "src/Vault.sol" 5 40 0 1)].
Proof. vm_compute. repeat split; reflexivity. Qed.

(** ** Runs outside a pull request *)

Lemma generateAndUpload_run cfg env v :
  let report := resolve env (outReport cfg) in
  let generate :=
    [EStartGroup ("Generate storage layout of contract "
                  +:+ quoted (contract cfg) +:+ " using foundry forge");
     EInfo "Start forge process"] in
  let upload content :=
    [EInfo "Parse generated layout"; EEndGroup;
     EWriteFile report content;
     EStartGroup ("Upload new report from " +:+ quoted report
                  +:+ " as artifact named " +:+ quoted (outReport cfg));
     EUploadArtifact (outReport cfg) [report] (dirname env report) 9] in
  generateAndUpload cfg env v
  = match createLayout env (contract cfg) (workingDirectory cfg) with
    | inl e => mkRun generate v (Throw e)
    | inr content =>
        match parseLayout env (Some content) with
        | inl e => mkRun (generate ++ [EInfo "Parse generated layout"]) v (Throw e)
        | inr cmpLayout =>
            match uploadArtifact env (outReport cfg) [report]
                    (dirname env report) with
            | None =>
                mkRun (generate ++ upload content) v
                  (Throw (Error env "Failed to upload storage layout report."))
            | Some id =>
                mkRun (generate ++ upload content
                       ++ [EInfo ("Artifact " +:+ pretty id
                                  +:+ " has been successfully uploaded!");
                           EEndGroup])
                  v (Ok cmpLayout)
            end
        end
    end.
Proof.
  intros report generate upload. unfold generateAndUpload.
  mstep. mstep.
  destruct (createLayout env (contract cfg) (workingDirectory cfg))
    as [e|content].
  { erewrite bind_throw by reflexivity. reflexivity. }
  mstep. mstep.
  destruct (parseLayout env (Some content)) as [e|cmpLayout].
  { erewrite bind_throw by reflexivity. reflexivity. }
  mstep. mstep. mstep. mstep. mstep. fold report.
  destruct (uploadArtifact env (outReport cfg) [report] (dirname env report))
    as [id|].
  - mstep. mstep. reflexivity.
  - reflexivity.
Qed.



(** ** The search for the base report *)

Lemma searchArtifact_step cfg env fuel page v :
  searchArtifact cfg env (S fuel) page v
  = match listArtifactsForRepo env page with
    | None => mkRun [ENextPage page] v (Ok None)
    | Some data =>
        match find (is_base_report cfg) data with
        | None =>
            then_run (mkRun [ENextPage page; ESleep (retryDelay cfg)] v (Ok tt))
              (searchArtifact cfg env fuel (S page) v)
        | Some artifact =>
            mkRun
              [ENextPage page;
               EInfo ("Found artifact named " +:+ quoted (baseReport cfg)
                      +:+ " with ID " +:+ quoted (pretty (art_id artifact))
                      +:+ " from commit "
                      +:+ quoted (show_undefined (head_sha artifact)))]
              {| srcContent := srcContent v;
                 refCommitHash := head_sha artifact;
                 exitCode := exitCode v |}
              (Ok (Some (art_id artifact)))
        end
    end.
Proof.
  cbn [searchArtifact]. mstep.
  destruct (listArtifactsForRepo env page) as [data|]; [|reflexivity].
  destruct (find (is_base_report cfg) data) as [artifact|].
  - mstep. mstep. mstep. reflexivity.
  - mstep. reflexivity.
Qed.

Lemma search_listing_ends cfg env n :
  ∀ fuel page v,
    listArtifactsForRepo env (page + n) = None → (n < fuel)%nat →
    let r := searchArtifact cfg env fuel page v in
    outcome r ≠ Pending
    ∧ (waits (events r) ≤ n)%nat
    ∧ ((∀ i data, listArtifactsForRepo env i = Some data →
                  find (is_base_report cfg) data = None) →
       outcome r = Ok None).
Proof.
  induction n as [|n IH]; intros fuel page v Hend Hfuel;
    (destruct fuel as [|fuel]; [exfalso; lia|]); cbn zeta;
    rewrite searchArtifact_step.
  - rewrite Nat.add_0_r in Hend. rewrite Hend. cbn. by repeat split.
  - destruct (listArtifactsForRepo env page) as [data|] eqn:Hpage.
    2:{ cbn. repeat split; [done | lia]. }
    destruct (find (is_base_report cfg) data) as [artifact|] eqn:Hfind.
    { cbn. repeat split; [done | lia |].
      intros Hnone. by rewrite (Hnone _ _ Hpage) in Hfind. }
    destruct (IH fuel (S page) v) as (Hp & Hs & Hn);
      [by replace (S page + n)%nat with (page + S n)%nat by lia | lia |].
    unfold then_run. cbn. repeat split; [done | lia | done].
Qed.

Lemma search_pending_on_endless_listing cfg env :
  (∀ i, ∃ data, listArtifactsForRepo env i = Some data
                ∧ find (is_base_report cfg) data = None) →
  ∀ fuel page v, outcome (searchArtifact cfg env fuel page v) = Pending.
Proof.
  intros Hall fuel. induction fuel as [|fuel IH]; intros page v; [done|].
  rewrite searchArtifact_step.
  destruct (Hall page) as (data & -> & ->). unfold then_run. cbn. apply IH.
Qed.

Lemma fetchBase_no_id cfg env fuel v artifactId :
  outcome (searchArtifact cfg env fuel 0 v) = Ok artifactId →
  truthy_id artifactId = None →
  outcome (fetchBase cfg env fuel v) = Throw (notFoundError cfg env).
Proof.
  intros H Hid.
  destruct (searchArtifact cfg env fuel 0 v) as [evs v1 o] eqn:Hsearch.
  cbn in H. subst o. unfold fetchBase.
  mstep. erewrite bind_then by exact Hsearch. mstep. rewrite Hid.
  erewrite bind_throw by reflexivity. reflexivity.
Qed.

Lemma fetchBase_not_found cfg env fuel v :
  outcome (searchArtifact cfg env fuel 0 v) = Ok None →
  outcome (fetchBase cfg env fuel v) = Throw (notFoundError cfg env).
Proof. intros H. by eapply fetchBase_no_id. Qed.

Lemma searchArtifact_more_fuel cfg env fuel :
  ∀ fuel' page v,
    outcome (searchArtifact cfg env fuel page v) ≠ Pending →
    (fuel ≤ fuel')%nat →
    searchArtifact cfg env fuel' page v = searchArtifact cfg env fuel page v.
Proof.
  induction fuel as [|fuel IH]; intros fuel' page v Hp Hle; [done|].
  destruct fuel' as [|fuel']; [lia|].
  rewrite !searchArtifact_step. rewrite searchArtifact_step in Hp.
  destruct (listArtifactsForRepo env page) as [data|]; [|done].
  destruct (find (is_base_report cfg) data) as [artifact|]; [done|].
  rewrite IH; [done | exact Hp | lia].
Qed.

Lemma _run_fetch_throw cfg env fuel v e0 v0 cmp e :
  generateAndUpload cfg env v = mkRun e0 v0 (Ok cmp) →
  eventName cfg = "pull_request" →
  outcome (fetchBase cfg env fuel v0) = Throw e →
  outcome (_run cfg env fuel v) = Throw e.
Proof.
  intros Hgen Hev Hfetch. unfold _run.
  erewrite bind_then by exact Hgen. rewrite Hev.
  assert (String.eqb "pull_request" "pull_request" = true) as -> by done.
  unfold mbind, M_bind. rewrite Hfetch. reflexivity.
Qed.

(** C7, as amended.  The loop is not a retry loop: it advances the
    listing one page at a time and waits [retryDelay] after each page
    without a usable report.  When the listing ends after [n] pages the
    loop ends too, after at most [n] waits; if no page holds a usable
    report it leaves [artifactId] null and the run fails with the error
    of line 127. *)
Theorem search_bounded_by_listing cfg env n fuel v :
  listArtifactsForRepo env n = None → (n < fuel)%nat →
  let r := searchArtifact cfg env fuel 0 v in
  outcome r ≠ Pending
  ∧ (waits (events r) ≤ n)%nat
  ∧ ((∀ i data, listArtifactsForRepo env i = Some data →
                find (is_base_report cfg) data = None) →
     outcome r = Ok None
     ∧ outcome (fetchBase cfg env fuel v) = Throw (notFoundError cfg env)
     ∧ (∀ e0 cmp,
          generateAndUpload cfg env initial = mkRun e0 v (Ok cmp) →
          eventName cfg = "pull_request" →
          outcome (_run cfg env fuel initial) = Throw (notFoundError cfg env))).
Proof.
  intros Hend Hfuel r.
  destruct (search_listing_ends cfg env n fuel 0%nat v Hend Hfuel)
    as (Hp & Hs & Hn).
  repeat split; [done | done | by apply Hn | |].
  - by apply fetchBase_not_found, Hn.
  - intros e0 cmp Hgen Hev. eapply _run_fetch_throw; [done | done |].
    by apply fetchBase_not_found, Hn.
Qed.

Lemma search_bounded_by_listing_witness :
  outcome (searchArtifact (demo_config "pull_request" false "" "")
             (demo_env stale_pages diffLevels_spec [owner_var] [owner_var])
             3 0 initial) ≠ Pending
  ∧ (waits (events (searchArtifact (demo_config "pull_request" false "" "")
                      (demo_env stale_pages diffLevels_spec [owner_var] [owner_var])
                      3 0 initial)) ≤ 2)%nat.
Proof.
  destruct (search_bounded_by_listing (demo_config "pull_request" false "" "")
              (demo_env stale_pages diffLevels_spec [owner_var] [owner_var])
              2 3 initial) as (Hp & Hs & _).
  - reflexivity.
  - lia.
  - split; [exact Hp | exact Hs].
Defined.

(** C7, the claim as first stated fails: no page of this listing holds a
    usable report of the base branch, yet the loop ends after two waits
    with [artifactId] still null, and the run fails with the error of
    line 127. *)
Lemma search_ends_without_report :
  (∀ i data, stale_pages i = Some data →
             find (is_base_report (demo_config "pull_request" false "" "")) data
             = None)
  ∧ searchArtifact (demo_config "pull_request" false "" "")
      (demo_env stale_pages diffLevels_spec [owner_var] [owner_var]) 3 0 initial
    = mkRun [ENextPage 0; ESleep 5000; ENextPage 1; ESleep 5000; ENextPage 2]
        initial (Ok None)
  ∧ outcome (_run (demo_config "pull_request" false "" "")
               (demo_env stale_pages diffLevels_spec [owner_var] [owner_var])
               3 initial)
    = Throw (notFoundError (demo_config "pull_request" false "" "")
               (demo_env stale_pages diffLevels_spec [owner_var] [owner_var]))
  ∧ ∀ fuel, (3 ≤ fuel)%nat →
      outcome (searchArtifact (demo_config "pull_request" false "" "")
                 (demo_env stale_pages diffLevels_spec [owner_var] [owner_var])
                 fuel 0 initial) = Ok None.
Proof.
  split; [|split; [|split]].
  - intros [|[|i]] data H; cbn in H; by simplify_eq.
  - vm_compute. reflexivity.
  - vm_compute. reflexivity.
  - intros fuel Hfuel.
    apply (search_listing_ends _ _ 2 fuel 0%nat initial); [done | lia |].
    intros [|[|i]] data H; cbn in H; by simplify_eq.
Qed.

(** ** Loading the downloaded archive *)

Lemma for_each_loadEntry entries v :
  for_each loadEntry entries v
  = mkRun (loading_line <$> entries)
      {| srcContent := foldl (λ _ e, Some (readAsText e)) (srcContent v) entries;
         refCommitHash := refCommitHash v;
         exitCode := exitCode v |}
      (Ok tt).
Proof.
  revert v. induction entries as [|e es IH]; intros v.
  - by destruct v.
  - cbn [for_each]. erewrite bind_ok by reflexivity.
    rewrite IH. reflexivity.
Qed.

Lemma fetchBase_found cfg env fuel v evs v1 id :
  searchArtifact cfg env fuel 0 v = mkRun evs v1 (Ok (Some id)) →
  id ≠ 0 →
  let v2 :=
    {| srcContent :=
         foldl (λ _ e, Some (readAsText e)) (srcContent v1) (downloadArtifact env id);
       refCommitHash := refCommitHash v1;
       exitCode := exitCode v1 |} in
  let loaded :=
    EStartGroup ("Searching artifact " +:+ quoted (baseReport cfg)
                 +:+ " on repository " +:+ quoted (repository cfg)
                 +:+ ", on branch " +:+ quoted (baseBranch cfg))
    :: evs
    ++ EEndGroup
    :: EStartGroup ("Downloading artifact " +:+ quoted (baseReport cfg)
                    +:+ " of repository " +:+ quoted (repository cfg)
                    +:+ " with ID " +:+ quoted (pretty id))
    :: EDownloadArtifact id
    :: (loading_line <$> downloadArtifact env id)
    ++ [EEndGroup; EInfo "Mapping reference storage layout report"] in
  fetchBase cfg env fuel v
  = match parseLayout env (srcContent v2) with
    | inl e => mkRun loaded v2 (Throw e)
    | inr srcLayout => mkRun (loaded ++ [EEndGroup]) v2 (Ok srcLayout)
    end.
Proof.
  intros Hsearch Hid v2 loaded. unfold fetchBase.
  mstep. erewrite bind_then by exact Hsearch. mstep.
  assert (truthy_id (Some id) = Some id) as ->.
  { unfold truthy_id. by destruct (Z.eqb_spec id 0). }
  erewrite bind_then.
  2:{ mstep. mstep. erewrite bind_then by apply for_each_loadEntry.
      reflexivity. }
  mstep. mstep. cbn [final then_run get_srcContent outcome]. fold v2.
  destruct (parseLayout env (srcContent v2)) as [e|srcLayout].
  - erewrite bind_throw by reflexivity. subst loaded. mdone.
  - mstep. mstep. subst loaded. mdone.
Qed.

(** C10. When the archive holds the entries [entries ++ [entry]] (any
    number of earlier entries, so more than one in all when [entries] is
    not empty), every entry is logged and read in archive order, each read
    overwrites [srcContent], and what [parseLayout] receives is the text
    of the last entry alone: neither the events, the store nor the outcome
    of the run depend on the text of an earlier entry. *)
Theorem last_entry_is_base_layout
    cfg env fuel e0 v0 cmp evs v1 id entries entry :
  generateAndUpload cfg env initial = mkRun e0 v0 (Ok cmp) →
  eventName cfg = "pull_request" →
  searchArtifact cfg env fuel 0 v0 = mkRun evs v1 (Ok (Some id)) →
  id ≠ 0 →
  downloadArtifact env id = entries ++ [entry] →
  let v2 :=
    {| srcContent := Some (readAsText entry);
       refCommitHash := refCommitHash v1;
       exitCode := exitCode v1 |} in
  let loaded :=
    e0
    ++ EStartGroup ("Searching artifact " +:+ quoted (baseReport cfg)
                    +:+ " on repository " +:+ quoted (repository cfg)
                    +:+ ", on branch " +:+ quoted (baseBranch cfg))
    :: evs
    ++ EEndGroup
    :: EStartGroup ("Downloading artifact " +:+ quoted (baseReport cfg)
                    +:+ " of repository " +:+ quoted (repository cfg)
                    +:+ " with ID " +:+ quoted (pretty id))
    :: EDownloadArtifact id
    :: (loading_line <$> entries ++ [entry])
    ++ [EEndGroup; EInfo "Mapping reference storage layout report"] in
  for_each loadEntry (entries ++ [entry]) v1
  = mkRun (loading_line <$> entries ++ [entry]) v2 (Ok tt)
  ∧ _run cfg env fuel initial
    = match parseLayout env (Some (readAsText entry)) with
      | inl e => mkRun loaded v2 (Throw e)
      | inr srcLayout =>
          then_run (mkRun (loaded ++ [EEndGroup]) v2 (Ok tt))
            (checkAndReport cfg env srcLayout cmp v2)
      end.
Proof.
  intros Hgen Hev Hsearch Hid Hzip v2 loaded.
  assert (foldl (λ _ e, Some (readAsText e)) (srcContent v1) (entries ++ [entry])
          = Some (readAsText entry)) as Hlast by by rewrite foldl_app.
  split.
  - rewrite for_each_loadEntry, Hlast. reflexivity.
  - pose proof (fetchBase_found cfg env fuel v0 evs v1 id Hsearch Hid) as Hfetch.
    cbn zeta in Hfetch. rewrite Hzip, Hlast in Hfetch.
    cbn [srcContent] in Hfetch.
    unfold _run. erewrite bind_then by exact Hgen. rewrite Hev.
    change (String.eqb "pull_request" "pull_request") with true. cbv iota.
    subst loaded.
    destruct (parseLayout env (Some (readAsText entry))) as [e|srcLayout].
    + erewrite bind_throw by exact Hfetch. mdone.
    + erewrite bind_then by exact Hfetch. mdone.
Qed.

Lemma last_entry_is_base_layout_witness :
  for_each loadEntry
    ([mkEntry "stale.json" "STALE"] ++ [mkEntry "main.Vault-0a1b2c3d.json" "BASE"])
    (mkVars None (Some "beef01") 0)
  = mkRun
      (loading_line <$> [mkEntry "stale.json" "STALE"]
                        ++ [mkEntry "main.Vault-0a1b2c3d.json" "BASE"])
      (mkVars (Some "BASE") (Some "beef01") 0) (Ok tt).
Proof.
  refine (proj1 (last_entry_is_base_layout
                   (demo_config "pull_request" false "" "")
                   (demo_env demo_pages diffLevels_spec [owner_var] [admin_var])
                   3
                   (events (generateAndUpload
                              (demo_config "pull_request" false "" "")
                              (demo_env demo_pages diffLevels_spec [owner_var]
                                 [admin_var]) initial))
                   initial [admin_var]
                   (events (searchArtifact
                              (demo_config "pull_request" false "" "")
                              (demo_env demo_pages diffLevels_spec [owner_var]
                                 [admin_var]) 3 0 initial))
                   (mkVars None (Some "beef01") 0) 42
                   [mkEntry "stale.json" "STALE"]
                   (mkEntry "main.Vault-0a1b2c3d.json" "BASE") _ _ _ _ _)).
  - vm_compute. reflexivity.
  - reflexivity.
  - vm_compute. reflexivity.
  - discriminate.
  - reflexivity.
Defined.

(** ** Termination *)

Lemma checkAndReport_not_pending cfg env src cmp v :
  outcome (checkAndReport cfg env src cmp v) ≠ Pending.
Proof.
  destruct (snd (checkLayouts env src cmp (checkOptions cfg))) as [|d ds] eqn:E.
  { by rewrite (checkAndReport_no_diff _ _ _ _ _ E). }
  assert (snd (checkLayouts env src cmp (checkOptions cfg)) ≠ []) as Hne
    by by rewrite E.
  destruct (parseSource env (contractAbs cfg)) as [e|sd] eqn:Hsd.
  { by rewrite (checkAndReport_parse_throw _ _ _ _ _ _ Hne Hsd). }
  destruct (format_all_or_first_failure env sd
              (snd (checkLayouts env src cmp (checkOptions cfg))))
    as [[fds Hf]|(ds1 & fds1 & d' & e & ds2 & Hds & Hf & He)].
  - rewrite (checkAndReport_formatted _ _ _ _ _ _ _ Hne Hsd Hf).
    by destruct (unsafeChanges cfg env fds).
  - by rewrite (checkAndReport_format_throw _ _ _ _ _ _ _ _ _ _ _ Hds Hsd Hf He).
Qed.

Lemma fetchBase_not_pending cfg env fuel v :
  outcome (searchArtifact cfg env fuel 0 v) ≠ Pending →
  outcome (fetchBase cfg env fuel v) ≠ Pending.
Proof.
  intros Hp.
  destruct (searchArtifact cfg env fuel 0 v) as [evs v1 [a|e|]] eqn:Hs; [| |done].
  - destruct (truthy_id a) as [id|] eqn:Hid.
    + assert (a = Some id ∧ id ≠ 0) as [-> Hne].
      { destruct a as [id'|]; [|done]. cbn in Hid.
        destruct (Z.eqb_spec id' 0); by simplify_eq. }
      rewrite (fetchBase_found cfg env fuel v evs v1 id Hs Hne).
      by destruct (parseLayout env _).
    + erewrite fetchBase_no_id; [done | by rewrite Hs | done].
  - unfold fetchBase. mstep. by erewrite bind_throw by exact Hs.
Qed.

Lemma generateAndUpload_final cfg env v :
  final (generateAndUpload cfg env v) = v
  ∧ outcome (generateAndUpload cfg env v) ≠ Pending.
Proof.
  rewrite generateAndUpload_run.
  destruct (createLayout env _ _); [done|].
  destruct (parseLayout env _); [done|].
  by destruct (uploadArtifact env _ _ _).
Qed.

Lemma _run_not_pending cfg env fuel v :
  outcome (searchArtifact cfg env fuel 0 v) ≠ Pending →
  outcome (_run cfg env fuel v) ≠ Pending.
Proof.
  intros Hp. unfold _run.
  destruct (generateAndUpload_final cfg env v) as [Hv Hg].
  destruct (generateAndUpload cfg env v) as [e0 v0 [cmp|e|]] eqn:Hgen;
    cbn in Hv; subst v0; [| |done].
  2:{ by erewrite bind_throw by exact Hgen. }
  erewrite bind_then by exact Hgen.
  destruct (String.eqb (eventName cfg) "pull_request"); [|done].
  pose proof (fetchBase_not_pending cfg env fuel v Hp) as Hf.
  destruct (fetchBase cfg env fuel v) as [e1 v1 [src|e|]] eqn:Hfetch; [| |done].
  - erewrite bind_then by exact Hfetch. apply checkAndReport_not_pending.
  - by erewrite bind_throw by exact Hfetch.
Qed.

Lemma bind_cong_at {A B} (m : M A) (k k' : A → M B) v :
  (∀ a, outcome (m v) = Ok a → k a (final (m v)) = k' a (final (m v))) →
  (m ≫= k) v = (m ≫= k') v.
Proof.
  intros H. unfold mbind, M_bind.
  destruct (outcome (m v)) as [a| |]; [by rewrite H | done..].
Qed.

Lemma bind_cong_l {A B} (m m' : M A) (k : A → M B) v :
  m v = m' v → (m ≫= k) v = (m' ≫= k) v.
Proof. intros H. unfold mbind, M_bind. by rewrite H. Qed.

Lemma _run_more_fuel cfg env fuel fuel' v :
  outcome (searchArtifact cfg env fuel 0 v) ≠ Pending →
  (fuel ≤ fuel')%nat →
  _run cfg env fuel' v = _run cfg env fuel v.
Proof.
  intros Hp Hle.
  assert (fetchBase cfg env fuel' v = fetchBase cfg env fuel v) as Hfetch.
  { unfold fetchBase. apply bind_cong_at. intros [] _.
    cbn [final startGroup emit]. apply bind_cong_l.
    by apply searchArtifact_more_fuel. }
  unfold _run. destruct (generateAndUpload_final cfg env v) as [Hv _].
  destruct (generateAndUpload cfg env v) as [e0 v0 [cmp|e|]] eqn:Hgen;
    cbn in Hv; subst v0.
  - erewrite !bind_then by exact Hgen.
    destruct (String.eqb (eventName cfg) "pull_request"); [|done].
    f_equal. by apply bind_cong_l.
  - by erewrite !bind_throw by exact Hgen.
  - by erewrite !bind_pending by exact Hgen.
Qed.

Lemma run_exits cfg env fuel v :
  outcome (_run cfg env fuel v) ≠ Pending →
  ∃ evs code,
    events (run cfg env fuel v) = evs ++ [EExit code]
    ∧ outcome (run cfg env fuel v) = Ok tt.
Proof.
  intros Hnp.
  destruct (_run cfg env fuel v) as [evs v1 [[]|e|]] eqn:Hrun.
  - erewrite run_of_ok by exact Hrun. eauto.
  - erewrite run_of_throw by exact Hrun. unfold failure_events. cbn.
    exists (evs ++ ESetFailed e
               :: (if truthy_string (stack e)
                   then [EDebug (default "" (stack e))] else [])), 1.
    rewrite <- !app_assoc. done.
  - done.
Qed.

(** ** Errors before the diff *)

Lemma head_parse_error cfg env fuel v content e :
  createLayout env (contract cfg) (workingDirectory cfg) = inr content →
  parseLayout env (Some content) = inl e →
  acquireLayouts cfg env fuel v
  = mkRun [EStartGroup ("Generate storage layout of contract "
                        +:+ quoted (contract cfg) +:+ " using foundry forge");
           EInfo "Start forge process"; EInfo "Parse generated layout"]
      v (Throw e).
Proof.
  intros Hc Hp. unfold acquireLayouts.
  pose proof (generateAndUpload_run cfg env v) as Hgen. cbn zeta in Hgen.
  rewrite Hc, Hp in Hgen. erewrite bind_throw by exact Hgen. reflexivity.
Qed.

(** C6. An error thrown before the diff aborts the check: [run] adds to
    the events of that phase only the [setFailed] of the error (with its
    stack on the debug log) and the exit of the process with code 1; no
    diff is computed and nothing is annotated, since the phase emits only
    its own logging and artifact traffic.  A layout that does not parse is
    such an error.  And whenever [_run] ends at all, the last thing [run]
    does is to exit the process; [_run] does end when the artifact listing
    does. *)
Theorem parse_error_aborts_check cfg env fuel :
  (∀ e, outcome (acquireLayouts cfg env fuel initial) = Throw e →
     events (run cfg env fuel initial)
     = events (acquireLayouts cfg env fuel initial) ++ failure_events e
     ∧ outcome (run cfg env fuel initial) = Ok tt
     ∧ exitCode (final (run cfg env fuel initial)) = 1)
  ∧ Forall (λ ev, before_check ev = true)
      (events (acquireLayouts cfg env fuel initial))
  ∧ (∀ content e,
       createLayout env (contract cfg) (workingDirectory cfg) = inr content →
       parseLayout env (Some content) = inl e →
       outcome (acquireLayouts cfg env fuel initial) = Throw e)
  ∧ (∀ e0 v0 cmp evs v1 id entries entry e,
       generateAndUpload cfg env initial = mkRun e0 v0 (Ok cmp) →
       eventName cfg = "pull_request" →
       searchArtifact cfg env fuel 0 v0 = mkRun evs v1 (Ok (Some id)) →
       id ≠ 0 →
       downloadArtifact env id = entries ++ [entry] →
       parseLayout env (Some (readAsText entry)) = inl e →
       outcome (acquireLayouts cfg env fuel initial) = Throw e)
  ∧ (outcome (_run cfg env fuel initial) ≠ Pending →
     ∃ evs code,
       events (run cfg env fuel initial) = evs ++ [EExit code]
       ∧ outcome (run cfg env fuel initial) = Ok tt)
  ∧ (∀ n, listArtifactsForRepo env n = None → (n < fuel)%nat →
          outcome (_run cfg env fuel initial) ≠ Pending).
Proof.
  split; [|split; [|split; [|split; [|split]]]].
  - intros e He.
    destruct (acquireLayouts cfg env fuel initial) as [evs v r] eqn:Hacq.
    cbn in He. subst r.
    assert (_run cfg env fuel initial = mkRun evs v (Throw e)) as Hrun.
    { rewrite _run_split. by erewrite bind_throw by exact Hacq. }
    erewrite run_of_throw by exact Hrun. done.
  - apply quiet_acquireLayouts.
  - intros content e Hc Hp. by erewrite head_parse_error.
  - intros e0 v0 cmp evs v1 id entries entry e Hgen Hev Hsearch Hid Hzip Hp.
    pose proof (fetchBase_found cfg env fuel v0 evs v1 id Hsearch Hid) as Hfetch.
    cbn zeta in Hfetch. rewrite Hzip, foldl_app in Hfetch.
    cbn [foldl srcContent] in Hfetch. rewrite Hp in Hfetch.
    unfold acquireLayouts. erewrite bind_then by exact Hgen. rewrite Hev.
    change (String.eqb "pull_request" "pull_request") with true. cbv iota.
    erewrite bind_throw by exact Hfetch. reflexivity.
  - apply run_exits.
  - intros n Hend Hfuel. apply _run_not_pending.
    by apply (search_listing_ends cfg env n fuel 0%nat initial).
Qed.

Lemma parse_error_aborts_check_witness :
  events (run (demo_config "pull_request" false "" "") corrupt_env 3 initial)
  = events (acquireLayouts (demo_config "pull_request" false "" "")
              corrupt_env 3 initial)
    ++ [ESetFailed (mkJsError "Unexpected end of JSON input"
                      (Some "SyntaxError: Unexpected end of JSON input"));
        EDebug "SyntaxError: Unexpected end of JSON input";
        EExit 1].
Proof.
  destruct (parse_error_aborts_check (demo_config "pull_request" false "" "")
              corrupt_env 3) as (Habort & _).
  destruct (Habort (mkJsError "Unexpected end of JSON input"
                      (Some "SyntaxError: Unexpected end of JSON input")))
    as (Hev & _).
  - vm_compute. reflexivity.
  - exact Hev.
Defined.

(** ** The diff engine of the specification *)

Lemma lookupByName_self (L : StorageLayout) i v :
  NoDup (name <$> L) → L !! i = Some v → lookupByName L (name v) = Some (i, v).
Proof.
  intros Hnd Hi. apply list_find_Some. split; [done|]. split; [done|].
  intros j y Hj Hlt Hname.
  assert (j = i); [|lia].
  eapply (NoDup_lookup (name <$> L) j i (name v)); [done| |].
  - by rewrite list_lookup_fmap, Hj, <- Hname.
  - by rewrite list_lookup_fmap, Hi.
Qed.

Lemma lookupByName_Some base n i b :
  lookupByName base n = Some (i, b) → base !! i = Some b ∧ name b = n.
Proof. intros H. apply list_find_Some in H as (? & ? & _). done. Qed.

Lemma lookupByName_None base n b :
  lookupByName base n = None → b ∈ base → name b ≠ n.
Proof.
  intros H Hb. apply list_find_None in H.
  by apply (proj1 (Forall_forall _ _) H b).
Qed.

Lemma compareMatched_self v : compareMatched v v = [].
Proof.
  unfold compareMatched.
  destruct (decide _); [|done]. by destruct (decide _); [|tauto].
Qed.

Lemma compareMatched_kind b h d :
  d ∈ compareMatched b h → kind d = TYPE_CHANGED ∨ kind d = SLOT_CHANGED.
Proof.
  unfold compareMatched. repeat destruct (decide _); intros H.
  - inversion H.
  - apply list_elem_of_singleton in H as ->. by right.
  - apply list_elem_of_singleton in H as ->. by left.
Qed.

Lemma alignHead_identity base consumed head :
  (∀ h, h ∈ head → ∃ i, lookupByName base (name h) = Some (i, h)) →
  alignHead base consumed head = ([], consumed).
Proof.
  induction head as [|h rest IH]; intros H; [done|].
  cbn [alignHead].
  destruct (H h) as [i ->]; [left|].
  rewrite compareMatched_self, IH; [done|].
  intros h' Hh'. apply H. by right.
Qed.

Lemma matchedByName_elem base head i :
  i ∈ matchedByName base head
  ↔ ∃ h b, h ∈ head ∧ lookupByName base (name h) = Some (i, b).
Proof.
  unfold matchedByName. rewrite list_elem_of_omap. split.
  - intros (h & Hh & Hf).
    destruct (lookupByName base (name h)) as [[j b]|] eqn:E; [|done].
    cbn in Hf. simplify_eq. eauto.
  - intros (h & b & Hh & Hl). exists h. split; [done|]. by rewrite Hl.
Qed.

Lemma removals_all_consumed consumed base k :
  (∀ j, (j < length base)%nat → (k + j)%nat ∈ consumed) →
  removals consumed base k = [].
Proof.
  revert k. induction base as [|b rest IH]; intros k H; [done|].
  cbn [removals]. destruct (decide (k ∈ consumed)) as [_|Hk].
  - apply IH. intros j Hj.
    replace (S k + j)%nat with (k + S j)%nat by lia. apply H. cbn. lia.
  - exfalso. apply Hk. rewrite <- (Nat.add_0_r k). apply H. cbn. lia.
Qed.

Lemma removals_elem consumed base k j b :
  base !! j = Some b → (k + j)%nat ∉ consumed →
  mkDiff VARIABLE_REMOVED (name b) (Some b) None None ∈ removals consumed base k.
Proof.
  revert k j. induction base as [|b' rest IH]; intros k j Hj Hk; [done|].
  cbn [removals]. destruct j as [|j].
  - cbn in Hj. simplify_eq. rewrite Nat.add_0_r in Hk.
    destruct (decide (k ∈ consumed)); [done | left].
  - cbn in Hj. assert (mkDiff VARIABLE_REMOVED (name b) (Some b) None None
                       ∈ removals consumed rest (S k)) as Hin.
    { apply (IH (S k) j); [done|].
      by replace (S k + j)%nat with (k + S j)%nat by lia. }
    destruct (decide (k ∈ consumed)); [done | by right].
Qed.

Lemma removals_shape consumed base k d :
  d ∈ removals consumed base k →
  kind d = VARIABLE_REMOVED ∧ headVariable d = None ∧ onChainEvidence d = None.
Proof.
  revert k. induction base as [|b rest IH]; intros k H; [inversion H|].
  cbn [removals] in H. destruct (decide (k ∈ consumed)).
  - by eapply IH.
  - apply elem_of_cons in H as [->|H]; [done | by eapply IH].
Qed.

Lemma findCandidate_Some consumed h base k i b :
  findCandidate consumed h base k = Some (i, b) →
  ∃ j, i = (k + j)%nat ∧ base !! j = Some b
       ∧ (i ∉ consumed) ∧ samePlaceAndType b h.
Proof.
  revert k. induction base as [|b' rest IH]; intros k H; [done|].
  cbn [findCandidate] in H. destruct (decide _) as [[Hc Hs]|_].
  - simplify_eq. exists 0%nat. by rewrite Nat.add_0_r.
  - destruct (IH _ H) as (j & -> & Hj & Hc & Hs).
    exists (S j). split; [lia|]. split; [done|]. by split.
Qed.

Lemma alignHead_kind base consumed head d :
  d ∈ fst (alignHead base consumed head) → kind d ≠ VARIABLE_REMOVED.
Proof.
  revert consumed. induction head as [|h rest IH]; intros consumed H.
  - inversion H.
  - cbn [alignHead] in H.
    destruct (lookupByName base (name h)) as [[j b]|].
    + cbn in H. apply elem_of_app in H as [H|H]; [|by eapply IH].
      by destruct (compareMatched_kind _ _ _ H) as [-> | ->].
    + destruct (findCandidate consumed h base 0) as [[j b]|]; cbn in H;
        (apply elem_of_cons in H as [->|H]; [done | by eapply IH]).
Qed.

Lemma alignHead_consumed base consumed head i :
  i ∈ snd (alignHead base consumed head) →
  i ∈ consumed
  ∨ ∃ h b, h ∈ head ∧ lookupByName base (name h) = None
           ∧ base !! i = Some b ∧ samePlaceAndType b h.
Proof.
  revert consumed. induction head as [|h rest IH]; intros consumed H.
  - by left.
  - cbn [alignHead] in H.
    destruct (lookupByName base (name h)) as [[j b]|] eqn:El.
    + cbn in H. destruct (IH _ H) as [?|(h' & b' & ? & ?)]; [by left|].
      right. exists h', b'. split; [by right | done].
    + destruct (findCandidate consumed h base 0) as [[j b]|] eqn:Ef; cbn in H.
      * destruct (IH _ H) as [Hc|(h' & b' & ? & ?)].
        -- apply elem_of_cons in Hc as [->|Hc]; [|by left].
           apply findCandidate_Some in Ef as (j' & -> & Hj & _ & Hs).
           right. exists h, b. split; [left | done].
        -- right. exists h', b'. split; [by right | done].
      * destruct (IH _ H) as [?|(h' & b' & ? & ?)]; [by left|].
        right. exists h', b'. split; [by right | done].
Qed.

Lemma alignHead_evidence base consumed head d :
  d ∈ fst (alignHead base consumed head) → onChainEvidence d = None.
Proof.
  revert consumed. induction head as [|h rest IH]; intros consumed H.
  - inversion H.
  - cbn [alignHead] in H.
    destruct (lookupByName base (name h)) as [[j b]|].
    + cbn in H. apply elem_of_app in H as [H|H]; [|by eapply IH].
      unfold compareMatched in H. repeat destruct (decide _).
      * inversion H.
      * by apply list_elem_of_singleton in H as ->.
      * by apply list_elem_of_singleton in H as ->.
    + destruct (findCandidate consumed h base 0) as [[j b]|]; cbn in H;
        (apply elem_of_cons in H as [->|H]; [done | by eapply IH]).
Qed.

Lemma annotateRemovals_disabled chain opts ds :
  opt_address opts = "" ∨ opt_provider opts = None →
  annotateRemovals chain opts ds = ([], ds).
Proof.
  intros H. induction ds as [|d rest IH]; [done|].
  cbn [annotateRemovals]. rewrite IH.
  destruct (opt_provider opts) as [p|]; [|done].
  destruct H as [->|?]; done.
Qed.

Lemma annotateRemovals_elem chain opts ds d :
  d ∈ ds →
  ∃ d', d' ∈ snd (annotateRemovals chain opts ds)
        ∧ kind d' = kind d ∧ variableName d' = variableName d
        ∧ baseVariable d' = baseVariable d ∧ headVariable d' = headVariable d.
Proof.
  induction ds as [|d0 rest IH]; intros H; [inversion H|].
  assert (∃ d', d' ∈ snd (annotateRemovals chain opts (d0 :: rest))
                ∧ kind d' = kind d0 ∧ variableName d' = variableName d0
                ∧ baseVariable d' = baseVariable d0
                ∧ headVariable d' = headVariable d0) as Hhead.
  { cbn [annotateRemovals].
    destruct (opt_provider opts) as [p|]; [|exists d0; by split; [left|]].
    destruct (String.eqb (opt_address opts) ""); [exists d0; by split; [left|]|].
    cbn. eexists. split; [left|]. unfold annotateRemoval.
    destruct (baseVariable d0) eqn:E; cbn; by rewrite ?E. }
  apply elem_of_cons in H as [->|H]; [done|].
  destruct (IH H) as (d' & Hd' & Hrest). exists d'. split; [|done].
  cbn [annotateRemovals]. destruct (opt_provider opts) as [p|]; [|by right].
  destruct (String.eqb (opt_address opts) ""); by right.
Qed.

Lemma annotateRemovals_reads chain opts ds p b d :
  opt_provider opts = Some p → opt_address opts ≠ "" →
  d ∈ ds → baseVariable d = Some b →
  EGetStorageAt p (opt_address opts) (slot b)
  ∈ fst (annotateRemovals chain opts ds).
Proof.
  intros Hp Ha Hd Hb. induction ds as [|d0 rest IH]; [inversion Hd|].
  cbn [annotateRemovals]. rewrite Hp.
  apply String.eqb_neq in Ha as Haddr. rewrite Haddr. cbn [fst].
  apply elem_of_app. apply elem_of_cons in Hd as [<-|Hd].
  - left. unfold annotateRemoval. rewrite Hb. left.
  - right. by apply IH.
Qed.

(** The engine, on a base variable that is gone from the head layout. *)
Section Removal.

Variable chain : Provider → string → N → option string.
Variables base head : StorageLayout.
Variable i : nat.
Variable v : StorageVariable.

Hypothesis in_base : base !! i = Some v.
Hypothesis absent_by_name : ∀ h, h ∈ head → name h ≠ name v.
Hypothesis not_renamed :
  ∀ h, h ∈ head → name h ∉ (name <$> base) → ¬ samePlaceAndType v h.

Lemma removed_unmatched :
  i ∉ snd (alignHead base (matchedByName base head) head).
Proof using in_base absent_by_name not_renamed.
  intros Hin. apply alignHead_consumed in Hin as [Hm|(h & b & Hh & Hl & Hb & Hs)].
  - apply matchedByName_elem in Hm as (h & b & Hh & Hl).
    apply lookupByName_Some in Hl as [Hb Hn].
    rewrite in_base in Hb. simplify_eq. by apply (absent_by_name h).
  - rewrite in_base in Hb. simplify_eq.
    apply (not_renamed h); [done | | done].
    intros (b' & Hn & Hb')%list_elem_of_fmap.
    by apply (lookupByName_None base (name h) b').
Qed.

Lemma removal_reported opts :
  checkRemovals opts = true →
  ∃ d, d ∈ snd (checkLayouts_spec chain base head opts)
       ∧ kind d = VARIABLE_REMOVED ∧ variableName d = name v
       ∧ baseVariable d = Some v ∧ headVariable d = None.
Proof using in_base absent_by_name not_renamed.
  intros Hc.
  pose proof (removals_elem _ base 0 i v in_base removed_unmatched) as Hrem.
  destruct (annotateRemovals_elem chain opts _ _ Hrem) as (d & Hd & ? & ? & ? & ?).
  exists d. split; [|done].
  unfold checkLayouts_spec. cbn [snd]. rewrite Hc.
  apply elem_of_app. by right.
Qed.

Lemma removal_read opts p :
  opt_provider opts = Some p → opt_address opts ≠ "" →
  EGetStorageAt p (opt_address opts) (slot v)
  ∈ fst (checkLayouts_spec chain base head opts).
Proof using in_base absent_by_name not_renamed.
  intros Hp Ha. unfold checkLayouts_spec. cbn [fst].
  apply (annotateRemovals_reads chain opts _ p v
           (mkDiff VARIABLE_REMOVED (name v) (Some v) None None));
    [done | done | | done].
  exact (removals_elem _ base 0 i v in_base removed_unmatched).
Qed.

End Removal.

Lemma removal_hidden chain base head opts d :
  checkRemovals opts = false →
  d ∈ snd (checkLayouts_spec chain base head opts) →
  kind d ≠ VARIABLE_REMOVED.
Proof.
  intros Hc. unfold checkLayouts_spec. cbn [snd]. rewrite Hc, app_nil_r.
  apply alignHead_kind.
Qed.

Lemma identity_engine chain (L : StorageLayout) opts :
  NoDup (name <$> L) → checkLayouts_spec chain L L opts = ([], []).
Proof.
  intros Hnd. unfold checkLayouts_spec.
  rewrite alignHead_identity.
  2:{ intros h (j & Hj)%list_elem_of_lookup. exists j.
      by apply lookupByName_self. }
  cbn [fst snd]. rewrite removals_all_consumed.
  - cbn. by destruct (checkRemovals opts).
  - intros j Hj. destruct (lookup_lt_is_Some_2 L j Hj) as [b Hb].
    apply matchedByName_elem. exists b, b.
    split; [by eapply list_elem_of_lookup_2 | by apply lookupByName_self].
Qed.

Lemma disabled_engine chain base head opts :
  opt_address opts = "" ∨ opt_provider opts = None →
  fst (checkLayouts_spec chain base head opts) = []
  ∧ Forall (λ d, onChainEvidence d = None)
      (snd (checkLayouts_spec chain base head opts)).
Proof.
  intros H. unfold checkLayouts_spec. rewrite annotateRemovals_disabled by done.
  split; [done|]. cbn [fst snd]. apply Forall_app. split.
  - apply Forall_forall. intros d. apply alignHead_evidence.
  - destruct (checkRemovals opts); [|constructor].
    apply Forall_forall. intros d Hd. by apply removals_shape in Hd as (_ & _ & ?).
Qed.

(** ** Claims on the diff engine *)

Lemma annotation_not_read env sd fd :
  is_onchain_read (annotation env sd fd) = false.
Proof. unfold annotation. by destruct (decide _). Qed.

Lemma checkAndReport_events cfg env src cmp v :
  ∃ rest,
    events (checkAndReport cfg env src cmp v)
    = EStartGroup "Check storage layout"
        :: fst (checkLayouts env src cmp (checkOptions cfg)) ++ rest
    ∧ Forall (λ ev, is_onchain_read ev = false) rest.
Proof.
  assert (∀ sd (fds : list FormattedDiff),
            Forall (λ ev, is_onchain_read ev = false) (annotation env sd <$> fds))
    as Hann.
  { intros sd fds. apply Forall_fmap, Forall_forall. intros fd _.
    apply annotation_not_read. }
  destruct (snd (checkLayouts env src cmp (checkOptions cfg))) as [|d ds] eqn:E.
  { rewrite (checkAndReport_no_diff _ _ _ _ _ E). eexists. split; [done|].
    by repeat constructor. }
  assert (snd (checkLayouts env src cmp (checkOptions cfg)) ≠ []) as Hne
    by by rewrite E.
  destruct (parseSource env (contractAbs cfg)) as [e|sd] eqn:Hsd.
  { rewrite (checkAndReport_parse_throw _ _ _ _ _ _ Hne Hsd).
    eexists. split; [done|]. by repeat constructor. }
  destruct (format_all_or_first_failure env sd
              (snd (checkLayouts env src cmp (checkOptions cfg))))
    as [[fds Hf]|(ds1 & fds1 & d' & e & ds2 & Hds & Hf & He)].
  - rewrite (checkAndReport_formatted _ _ _ _ _ _ _ Hne Hsd Hf).
    eexists. split; [done|]. constructor; [done|].
    apply Forall_app. split; [apply Hann|].
    destruct (unsafeChanges cfg env fds); by repeat constructor.
  - rewrite (checkAndReport_format_throw _ _ _ _ _ _ _ _ _ _ _ Hds Hsd Hf He).
    eexists. split; [done|]. constructor; [done | apply Hann].
Qed.

Lemma run_reads_from_engine cfg env fuel :
  (∀ src cmp, Forall (λ ev, is_onchain_read ev = false)
                (fst (checkLayouts env src cmp (checkOptions cfg)))) →
  Forall (λ ev, is_onchain_read ev = false) (events (run cfg env fuel initial)).
Proof.
  intros Hengine.
  assert (Forall (λ ev, is_onchain_read ev = false)
            (events (_run cfg env fuel initial))) as Hrun.
  { rewrite _run_split.
    destruct (quiet_acquireLayouts cfg env fuel initial) as [Hacq _].
    assert (Forall (λ ev, is_onchain_read ev = false)
              (events (acquireLayouts cfg env fuel initial))) as Hq
      by (eapply Forall_impl; [exact Hacq|]; by intros []).
    unfold mbind, M_bind.
    destruct (outcome (acquireLayouts cfg env fuel initial)) as [[[src cmp]|]| |];
      cbn [events]; try done.
    - apply Forall_app. split; [done|]. cbn [afterAcquire].
      destruct (checkAndReport_events cfg env src cmp
                  (final (acquireLayouts cfg env fuel initial)))
        as (rest & -> & Hrest).
      constructor; [done|]. apply Forall_app. by split.
    - apply Forall_app. split; [done | constructor]. }
  destruct (_run cfg env fuel initial) as [evs v [[]|e|]] eqn:E; cbn in Hrun.
  - erewrite run_of_ok by exact E. cbn. apply Forall_app.
    split; [done | by repeat constructor].
  - erewrite run_of_throw by exact E. cbn. apply Forall_app. split; [done|].
    unfold failure_events. destruct (truthy_string (stack e));
      by repeat constructor.
  - by erewrite run_of_pending by exact E.
Qed.

(** C4. Diffing a layout (its names distinct, as the data model has it)
    against itself gives no diff and reads nothing on chain, whatever the
    options; a run that compares the layout with itself then passes
    without an annotation and exits with code 0. *)
Theorem identity_yields_no_diff chain (L : StorageLayout) opts :
  NoDup (name <$> L) →
  checkLayouts_spec chain L L opts = ([], [])
  ∧ ∀ cfg env fuel evs v,
      checkLayouts env = checkLayouts_spec chain →
      acquireLayouts cfg env fuel initial = mkRun evs v (Ok (Some (L, L))) →
      _run cfg env fuel initial
      = mkRun (evs ++ [EStartGroup "Check storage layout"; EEndGroup]) v (Ok tt)
      ∧ events (run cfg env fuel initial)
        = evs ++ [EStartGroup "Check storage layout"; EEndGroup; EExit 0]
      ∧ Forall (λ ev, is_annotation ev = false)
          (events (run cfg env fuel initial)).
Proof.
  intros Hnd. split; [by apply identity_engine|].
  intros cfg env fuel evs v Hengine Hacq.
  pose proof (reach_check _ _ _ _ _ _ _ _ Hacq) as Hrun.
  destruct (acquire_keeps_exit_code _ _ _ _ _ _ Hacq) as [Hcode Hevs].
  rewrite checkAndReport_no_diff in Hrun
    by (by rewrite Hengine, identity_engine).
  rewrite Hengine, identity_engine in Hrun by done.
  unfold then_run in Hrun. cbn in Hrun.
  split; [done|].
  erewrite run_of_ok by exact Hrun. cbn. rewrite Hcode, <- app_assoc.
  split; [done|]. apply Forall_app. split; [|by repeat constructor].
  eapply Forall_impl; [exact Hevs|]. by intros [].
Qed.

Lemma identity_yields_no_diff_witness :
  checkLayouts_spec demo_chain [owner_var; legacy_var; balance256_var]
    [owner_var; legacy_var; balance256_var]
    (mkOptions "0xabc" (Some (getDefaultProvider "http://node")) true)
  = ([], []).
Proof.
  refine (proj1 (identity_yields_no_diff demo_chain
                   [owner_var; legacy_var; balance256_var]
                   (mkOptions "0xabc" (Some (getDefaultProvider "http://node")) true)
                   _)).
  apply (bool_decide_unpack
           (NoDup (name <$> [owner_var; legacy_var; balance256_var]))).
  vm_compute. reflexivity.
Defined.

(** C3. Removal gating.  Take a base variable [v] that is gone from the
    head layout: no head variable carries its name, and no head variable
    of a name new to the base sits at its slot and offset with its type
    (that would be a rename).  With [failOnRemoval] unset, the engine
    returns no [VARIABLE_REMOVED] diff.  With it set, a [VARIABLE_REMOVED]
    diff for [v] is returned, the severity table gives it the error level,
    a run that reaches the check annotates it with [error], and that run
    throws the unsafe-layout error. *)
Theorem removal_gating
    chain describe cfg env fuel evs vars base head i v sd fds :
  base !! i = Some v →
  (∀ h, h ∈ head → name h ≠ name v) →
  (∀ h, h ∈ head → name h ∉ (name <$> base) → ¬ samePlaceAndType v h) →
  checkLayouts env = checkLayouts_spec chain →
  diffLevels env = diffLevels_spec →
  formatDiff env = formatDiff_spec describe →
  acquireLayouts cfg env fuel initial = mkRun evs vars (Ok (Some (base, head))) →
  parseSource env (contractAbs cfg) = inr sd →
  Forall2 (λ d fd, formatDiff env sd d = inr fd)
    (snd (checkLayouts env base head (checkOptions cfg))) fds →
  if failOnRemoval cfg then
    ∃ d, d ∈ snd (checkLayouts env base head (checkOptions cfg))
         ∧ kind d = VARIABLE_REMOVED
         ∧ variableName d = name v
         ∧ baseVariable d = Some v
         ∧ level_of env (kind d) = error_level
         ∧ EError (describe d)
             {| title := diffTitles env !! VARIABLE_REMOVED;
                file := path sd;
                startLine := line (loc_start (contractLoc sd));
                endLine := line (loc_end (contractLoc sd));
                startColumn := column (loc_start (contractLoc sd));
                endColumn := column (loc_end (contractLoc sd)) |}
           ∈ events (_run cfg env fuel initial)
         ∧ outcome (_run cfg env fuel initial) = Throw (unsafeError env)
  else
    ∀ d, d ∈ snd (checkLayouts env base head (checkOptions cfg)) →
         kind d ≠ VARIABLE_REMOVED.
Proof.
  intros Hi Hname Hplace Hengine Hlevels Hformat Hacq Hsd Hfmt.
  destruct (failOnRemoval cfg) eqn:Hgate.
  2:{ intros d Hd. rewrite Hengine in Hd.
      by eapply removal_hidden; [|exact Hd]. }
  destruct (removal_reported chain base head i v Hi Hname Hplace
              (checkOptions cfg) Hgate) as (d & Hd & Hk & Hn & Hb & Hh).
  rewrite <- Hengine in Hd.
  assert (level_of env VARIABLE_REMOVED = error_level) as Hlevel
    by (unfold level_of; by rewrite Hlevels).
  apply list_elem_of_lookup in Hd as Hj. destruct Hj as [j Hj].
  destruct (Forall2_lookup_l _ _ _ _ _ Hfmt Hj) as (fd & Hfd & Hdfd).
  rewrite Hformat in Hdfd. unfold formatDiff_spec in Hdfd.
  rewrite Hh, Hk in Hdfd. simplify_eq.
  set (fd := mkFormatted VARIABLE_REMOVED (describe d) (contractLoc sd)) in *.
  assert (fd ∈ fds) as Hin by by eapply list_elem_of_lookup_2.
  assert (unsafeChanges cfg env fds = true) as Hunsafe.
  { apply unsafeChanges_iff. right. split; [done|]. by exists fd. }
  pose proof (reach_check _ _ _ _ _ _ _ _ Hacq) as Hrun.
  rewrite (checkAndReport_formatted cfg env base head vars sd fds) in Hrun;
    [| by intros Hnil; rewrite Hnil in Hd; inversion Hd | done | done].
  rewrite Hunsafe in Hrun. unfold then_run in Hrun. cbn in Hrun.
  exists d. rewrite Hk. repeat split; try done.
  - rewrite Hrun. cbn [events].
    apply elem_of_app. right. right. apply elem_of_app. right. right.
    apply elem_of_app. left.
    replace (EError _ _) with (annotation env sd fd).
    + by apply list_elem_of_fmap_2.
    + unfold annotation. subst fd. cbn. rewrite Hlevel.
      by destruct (decide _).
  - by rewrite Hrun.
Qed.

Lemma removal_gating_witness :
  ∃ d, d ∈ snd (checkLayouts
                  (demo_env demo_pages diffLevels_spec [owner_var; legacy_var]
                     [owner_var])
                  [owner_var; legacy_var] [owner_var]
                  (checkOptions (demo_config "pull_request" true "" "")))
       ∧ kind d = VARIABLE_REMOVED
       ∧ variableName d = "legacy"
       ∧ outcome (_run (demo_config "pull_request" true "" "")
                    (demo_env demo_pages diffLevels_spec [owner_var; legacy_var]
                       [owner_var]) 3 initial)
         = Throw (unsafeError
                    (demo_env demo_pages diffLevels_spec [owner_var; legacy_var]
                       [owner_var])).
Proof.
  pose proof (removal_gating demo_chain variableName
                (demo_config "pull_request" true "" "")
                (demo_env demo_pages diffLevels_spec [owner_var; legacy_var]
                   [owner_var])
                3
                (events (acquireLayouts (demo_config "pull_request" true "" "")
                           (demo_env demo_pages diffLevels_spec
                              [owner_var; legacy_var] [owner_var]) 3 initial))
                (mkVars (Some "BASE") (Some "beef01") 0)
                [owner_var; legacy_var] [owner_var] 1%nat legacy_var
                demo_source [legacy_removed]) as H.
  cbn [failOnRemoval demo_config] in H.
  destruct H as (d & Hd & Hk & Hn & _ & _ & _ & Hout).
  - reflexivity.
  - intros h Hh. apply list_elem_of_singleton in Hh as ->. discriminate.
  - intros h Hh _ (Hs & _). apply list_elem_of_singleton in Hh as ->.
    discriminate.
  - reflexivity.
  - reflexivity.
  - reflexivity.
  - vm_compute. reflexivity.
  - reflexivity.
  - vm_compute. repeat constructor.
  - exists d. repeat split; assumption.
Defined.

(** C5. The engine reads the chain only when it is given both an address
    and a provider: with either one missing it performs no read and
    attaches no evidence.  The script builds the provider from [rpcUrl]
    and passes none when [rpcUrl] is empty, so a run without [rpcUrl], or
    without an address, performs no on-chain read at all.  With both, the
    slot of a variable gone from the head layout is read. *)
Theorem onchain_needs_address_and_provider chain base head :
  (∀ opts,
     opt_address opts = "" ∨ opt_provider opts = None →
     fst (checkLayouts_spec chain base head opts) = []
     ∧ Forall (λ d, onChainEvidence d = None)
         (snd (checkLayouts_spec chain base head opts)))
  ∧ (∀ cfg,
       rpcUrl cfg = "" →
       opt_provider (checkOptions cfg) = None
       ∧ fst (checkLayouts_spec chain base head (checkOptions cfg)) = [])
  ∧ (∀ cfg env fuel,
       checkLayouts env = checkLayouts_spec chain →
       rpcUrl cfg = "" ∨ address cfg = "" →
       Forall (λ ev, is_onchain_read ev = false)
         (events (run cfg env fuel initial)))
  ∧ (∀ opts p i v,
       opt_provider opts = Some p → opt_address opts ≠ "" →
       base !! i = Some v →
       (∀ h, h ∈ head → name h ≠ name v) →
       (∀ h, h ∈ head → name h ∉ (name <$> base) → ¬ samePlaceAndType v h) →
       EGetStorageAt p (opt_address opts) (slot v)
       ∈ fst (checkLayouts_spec chain base head opts)).
Proof.
  assert (∀ cfg, rpcUrl cfg = "" → opt_provider (checkOptions cfg) = None)
    as Hprovider.
  { intros cfg Hurl. unfold checkOptions, provider. cbn. by rewrite Hurl. }
  split; [|split; [|split]].
  - intros opts. apply disabled_engine.
  - intros cfg Hurl. split; [by apply Hprovider|].
    apply disabled_engine. right. by apply Hprovider.
  - intros cfg env fuel Hengine Hoff. apply run_reads_from_engine.
    intros src cmp. rewrite Hengine.
    destruct (disabled_engine chain src cmp (checkOptions cfg)) as [-> _];
      [|constructor].
    destruct Hoff as [Hurl|Haddr]; [right; by apply Hprovider | by left].
  - intros opts p i v Hp Ha Hi Hname Hplace. by eapply removal_read.
Qed.

Lemma onchain_needs_address_and_provider_witness :
  fst (checkLayouts_spec demo_chain [owner_var; legacy_var] [owner_var]
         (checkOptions (demo_config "pull_request" true "0xabc" "")))
  = []
  ∧ Forall (λ ev, is_onchain_read ev = false)
      (events (run (demo_config "pull_request" true "0xabc" "")
                 (demo_env demo_pages diffLevels_spec [owner_var; legacy_var]
                    [owner_var]) 3 initial)).
Proof.
  destruct (onchain_needs_address_and_provider demo_chain
              [owner_var; legacy_var] [owner_var]) as (_ & Hurl & Hrun & _).
  split.
  - apply (Hurl (demo_config "pull_request" true "0xabc" "")). reflexivity.
  - apply Hrun; [reflexivity | left; reflexivity].
Defined.

(** * Further properties of the script *)

(** ** The escaped name of the contract *)

Lemma append_cons c s t : String c s +:+ t = String c (s +:+ t).
Proof. reflexivity. Qed.

Lemma string_forall_app p s t :
  string_forall p (s +:+ t) = string_forall p s && string_forall p t.
Proof.
  induction s as [|c s IH]; [done|].
  rewrite append_cons. cbn. rewrite IH. by rewrite andb_assoc.
Qed.

Lemma string_forall_impl (p q : ascii → bool) s :
  (∀ c, p c = true → q c = true) →
  string_forall p s = true → string_forall q s = true.
Proof.
  intros H. induction s as [|c s IH]; [done|]. cbn.
  rewrite !andb_true_iff. intros [? ?]. split; [by apply H | by apply IH].
Qed.

Lemma string_forall_substring p n m s :
  string_forall p s = true → string_forall p (String.substring n m s) = true.
Proof.
  revert n m. induction s as [|c s IH]; intros n m H.
  - by destruct n, m.
  - cbn in H. apply andb_true_iff in H as [Hc Hs].
    destruct n as [|n]; cbn.
    + destruct m as [|m]; [done|]. cbn. rewrite Hc. by apply IH.
    + by apply IH.
Qed.

Lemma length_substring_0 m s :
  String.length (String.substring 0 m s) = Nat.min m (String.length s).
Proof.
  revert m. induction s as [|c s IH]; intros [|m]; cbn; [done..|].
  by rewrite IH.
Qed.

Lemma length_append s t :
  String.length (s +:+ t) = (String.length s + String.length t)%nat.
Proof.
  induction s as [|c s IH]; [done|].
  rewrite append_cons. cbn. by rewrite IH.
Qed.

Lemma replace_class_length cls r s :
  String.length (replace_class cls r s) = String.length s.
Proof. induction s as [|c s IH]; [done|]. cbn. by rewrite IH. Qed.

Lemma replace_class_forall cls r s :
  cls r = false →
  string_forall (λ c, negb (cls c)) (replace_class cls r s) = true.
Proof.
  intros Hr. induction s as [|c s IH]; [done|]. cbn. rewrite IH, andb_true_r.
  destruct (cls c) eqn:E; by rewrite ?Hr, ?E.
Qed.

Lemma replace_class_fixed cls r s :
  replace_class cls r s = s ↔ string_forall (λ c, negb (cls c) || Ascii.eqb c r) s = true.
Proof.
  induction s as [|c s IH]; [done|]. cbn. rewrite andb_true_iff, <- IH. split.
  - intros H. injection H as Hc Hs. split; [|done].
    destruct (cls c); [|done]. cbn. subst c. apply Ascii.eqb_refl.
  - intros [Hc Hs]. rewrite Hs. f_equal.
    destruct (cls c); [|done]. cbn in Hc. by apply Ascii.eqb_eq in Hc.
Qed.

Section NameProperties.

Variable join : string → string → string.
Variable basename : string → string → string.
Variable sha256_hex : string → string.

(** X1. The base name of line 39 has the length of the file's base name
    and consists of letters, digits, hyphens and underscores only. *)
Theorem baseName_is_valid contract :
  string_forall name_char (Names.baseName basename contract) = true
  ∧ String.length (Names.baseName basename contract)
    = String.length (basename contract ".sol").
Proof.
  unfold Names.baseName. split; [|apply replace_class_length].
  eapply string_forall_impl;
    [|apply (replace_class_forall (λ c, negb (name_char c)) "_"); done].
  intros c. cbn beta. by rewrite negb_involutive.
Qed.

(** X2. The replacement of line 39 leaves a base name unchanged exactly
    when all its characters are letters, digits, hyphens or underscores;
    so it changes nothing when applied a second time. *)
Theorem baseName_unchanged_iff_valid contract :
  (Names.baseName basename contract = basename contract ".sol"
   ↔ string_forall name_char (basename contract ".sol") = true)
  ∧ replace_class (λ c, negb (name_char c)) "_" (Names.baseName basename contract)
    = Names.baseName basename contract.
Proof.
  assert (∀ s, replace_class (λ c, negb (name_char c)) "_" s = s
               ↔ string_forall name_char s = true) as Hfix.
  { intros s. rewrite replace_class_fixed. split; apply string_forall_impl.
    - intros c. cbn beta. rewrite negb_involutive, orb_true_iff.
      intros [?|Heq]; [done|]. apply Ascii.eqb_eq in Heq. by subst c.
    - intros c Hc. cbn beta. by rewrite negb_involutive, Hc. }
  split; [apply Hfix|]. apply Hfix, baseName_is_valid.
Qed.

(** X3. When the digest is hexadecimal, the escaped name of the contract
    (line 40) consists of letters, digits, hyphens and underscores only,
    whatever the working directory and the contract path. *)
Theorem escaped_name_is_valid workingDirectory contract :
  string_forall hex_char
    (sha256_hex (Names.contractAbs join workingDirectory contract)) = true →
  string_forall name_char
    (Names.contractEscaped join basename sha256_hex workingDirectory contract)
  = true.
Proof.
  intros Hhex. unfold Names.contractEscaped.
  rewrite !string_forall_app, !andb_true_iff.
  split; [apply baseName_is_valid|]. split; [done|].
  unfold Names.hash. apply string_forall_substring.
  eapply string_forall_impl; [|exact Hhex].
  intros c. unfold hex_char, name_char, in_range.
  rewrite !orb_true_iff, !andb_true_iff, !Nat.leb_le.
  change (nat_of_ascii "0") with 48%nat. change (nat_of_ascii "9") with 57%nat.
  change (nat_of_ascii "a") with 97%nat. change (nat_of_ascii "f") with 102%nat.
  change (nat_of_ascii "z") with 122%nat.
  intros [[? ?]|[? ?]]; [left; left; right | left; left; left; left]; lia.
Qed.

(** X5. With a digest of at least eight characters, the escaped name of
    the contract is nine characters longer than the file's base name:
    nothing is cut but the digest, and the name grows with the base
    name. *)
Theorem escaped_name_length workingDirectory contract :
  (8 ≤ String.length
         (sha256_hex (Names.contractAbs join workingDirectory contract)))%nat →
  String.length
    (Names.contractEscaped join basename sha256_hex workingDirectory contract)
  = (String.length (basename contract ".sol") + 9)%nat.
Proof.
  intros Hlen. unfold Names.contractEscaped, Names.hash.
  rewrite !length_append, length_substring_0.
  destruct (baseName_is_valid contract) as [_ ->].
  change (String.length "-") with 1%nat. lia.
Qed.

End NameProperties.

Lemma escaped_name_is_valid_witness :
  string_forall name_char
    (Names.contractEscaped (λ d p, d +:+ "/" +:+ p) demo_basename demo_digest
       "." "src/My Vault (v2).sol")
  = true.
Proof.
  apply (escaped_name_is_valid (λ d p, d +:+ "/" +:+ p) demo_basename
           demo_digest "." "src/My Vault (v2).sol").
  vm_compute. reflexivity.
Defined.

Lemma escaped_name_length_witness :
  String.length
    (Names.contractEscaped (λ d p, d +:+ "/" +:+ p) demo_basename demo_digest
       "." "src/Vault.sol")
  = (String.length (demo_basename "src/Vault.sol" ".sol") + 9)%nat.
Proof.
  apply (escaped_name_length (λ d p, d +:+ "/" +:+ p) demo_basename demo_digest
           "." "src/Vault.sol").
  vm_compute. lia.
Defined.

(** ** The artifact that the search picks *)

Lemma find_first {A} (p : A → bool) (l : list A) a :
  find p l = Some a →
  p a = true
  ∧ ∃ pre post, l = pre ++ a :: post ∧ Forall (λ x, p x = false) pre.
Proof.
  induction l as [|x l IH]; [done|]. cbn. destruct (p x) eqn:Hx.
  - intros [= ->]. split; [done|]. exists [], l. by split; [|constructor].
  - intros H. destruct (IH H) as (Ha & pre & post & -> & Hpre).
    split; [done|]. exists (x :: pre), post. by split; [|constructor].
Qed.

Lemma then_run_nil {A} v (r : Run A) : then_run (mkRun [] v (Ok tt)) r = r.
Proof. by destruct r. Qed.

Lemma then_run_assoc {A} e1 v1 e2 v2 (r : Run A) :
  then_run (mkRun e1 v1 (Ok tt)) (then_run (mkRun e2 v2 (Ok tt)) r)
  = then_run (mkRun (e1 ++ e2) v2 (Ok tt)) r.
Proof. unfold then_run. cbn. by rewrite app_assoc. Qed.

Lemma search_skips cfg env k :
  ∀ fuel page v,
    (∀ i, (i < k)%nat →
          ∃ d, listArtifactsForRepo env (page + i) = Some d
               ∧ find (is_base_report cfg) d = None) →
    searchArtifact cfg env (k + fuel) page v
    = then_run
        (mkRun (flat_map (λ i, [ENextPage i; ESleep (retryDelay cfg)])
                  (seq page k)) v (Ok tt))
        (searchArtifact cfg env fuel (page + k) v).
Proof.
  induction k as [|k IH]; intros fuel page v Hskip.
  - cbn [flat_map seq Nat.add]. by rewrite Nat.add_0_r, then_run_nil.
  - cbn [Nat.add]. rewrite searchArtifact_step.
    destruct (Hskip 0%nat) as (d & Hd & Hfind); [lia|].
    rewrite Nat.add_0_r in Hd. rewrite Hd, Hfind.
    rewrite (IH fuel (S page) v).
    + rewrite then_run_assoc. cbn [seq flat_map app].
      by replace (S page + k)%nat with (page + S k)%nat by lia.
    + intros i Hi. destruct (Hskip (S i)) as (d' & Hd' & Hf'); [lia|].
      exists d'. by replace (S page + i)%nat with (page + S i)%nat by lia.
Qed.

(** X6. The search takes the first usable report in listing order: when
    the pages before page [k] hold no non-expired artifact of the base
    report's name and page [k] does, the loop waits once per earlier page,
    asks for no page after [k], records the commit of the first such
    artifact of page [k] and returns its id. *)
Theorem search_finds_first cfg env k data artifact fuel v :
  (∀ i, (i < k)%nat →
        ∃ d, listArtifactsForRepo env i = Some d
             ∧ find (is_base_report cfg) d = None) →
  listArtifactsForRepo env k = Some data →
  find (is_base_report cfg) data = Some artifact →
  (k < fuel)%nat →
  searchArtifact cfg env fuel 0 v
  = mkRun
      (flat_map (λ i, [ENextPage i; ESleep (retryDelay cfg)]) (seq 0 k)
       ++ [ENextPage k;
           EInfo ("Found artifact named " +:+ quoted (baseReport cfg)
                  +:+ " with ID " +:+ quoted (pretty (art_id artifact))
                  +:+ " from commit "
                  +:+ quoted (show_undefined (head_sha artifact)))])
      {| srcContent := srcContent v;
         refCommitHash := head_sha artifact;
         exitCode := exitCode v |}
      (Ok (Some (art_id artifact)))
  ∧ expired artifact = false
  ∧ art_name artifact = baseReport cfg
  ∧ ∃ pre post,
      data = pre ++ artifact :: post
      ∧ Forall (λ a, expired a = true ∨ art_name a ≠ baseReport cfg) pre.
Proof.
  intros Hskip Hpage Hfind Hfuel.
  destruct (find_first _ _ _ Hfind) as (Hok & pre & post & Hdata & Hpre).
  unfold is_base_report in Hok. apply andb_true_iff in Hok as [Hexp Hname].
  apply negb_true_iff in Hexp. apply String.eqb_eq in Hname.
  split; [|split; [done|split; [done|]]].
  - replace fuel with (k + S (fuel - S k))%nat by lia.
    rewrite search_skips by done. cbn [Nat.add].
    rewrite searchArtifact_step, Hpage, Hfind. reflexivity.
  - exists pre, post. split; [done|].
    eapply Forall_impl; [exact Hpre|]. intros a Ha. unfold is_base_report in Ha.
    apply andb_false_iff in Ha as [Ha|Ha].
    + left. by apply negb_false_iff.
    + right. by apply String.eqb_neq.
Qed.

Lemma search_finds_first_witness :
  searchArtifact (demo_config "pull_request" false "" "")
    (demo_env demo_pages diffLevels_spec [owner_var] [owner_var]) 5 0 initial
  = mkRun
      [ENextPage 0; ESleep 5000; ENextPage 1;
       EInfo ("Found artifact named " +:+ quoted "main.Vault-0a1b2c3d.json"
              +:+ " with ID " +:+ quoted "42"
              +:+ " from commit " +:+ quoted "beef01")]
      (mkVars None (Some "beef01") 0) (Ok (Some 42)).
Proof.
  refine (proj1 (search_finds_first (demo_config "pull_request" false "" "")
                   (demo_env demo_pages diffLevels_spec [owner_var] [owner_var])
                   1
                   [mkArtifact 41 "main.Vault-0a1b2c3d.json" true (Some "c0ffee");
                    mkArtifact 42 "main.Vault-0a1b2c3d.json" false (Some "beef01")]
                   (mkArtifact 42 "main.Vault-0a1b2c3d.json" false (Some "beef01"))
                   5 initial _ _ _ _)).
  - intros i Hi. assert (i = 0%nat) as -> by lia. eexists. split; reflexivity.
  - reflexivity.
  - reflexivity.
  - lia.
Defined.

(** X7. An artifact id of 0 is falsy on line 109: when the search returns
    the id 0, nothing is downloaded and the run fails with the error of
    line 127, as if no artifact had been found. *)
Theorem zero_id_counts_as_missing cfg env fuel v evs v1 :
  searchArtifact cfg env fuel 0 v = mkRun evs v1 (Ok (Some 0)) →
  fetchBase cfg env fuel v
  = mkRun
      (EStartGroup ("Searching artifact " +:+ quoted (baseReport cfg)
                    +:+ " on repository " +:+ quoted (repository cfg)
                    +:+ ", on branch " +:+ quoted (baseBranch cfg))
       :: evs ++ [EEndGroup])
      v1 (Throw (notFoundError cfg env)).
Proof.
  intros Hsearch. unfold fetchBase.
  mstep. erewrite bind_then by exact Hsearch. mstep.
  cbn [truthy_id Z.eqb]. erewrite bind_throw by reflexivity. mdone.
Qed.

Lemma zero_id_counts_as_missing_witness :
  outcome (fetchBase (demo_config "pull_request" false "" "")
             (demo_env zero_pages diffLevels_spec [owner_var] [owner_var])
             3 initial)
  = Throw (notFoundError (demo_config "pull_request" false "" "")
             (demo_env zero_pages diffLevels_spec [owner_var] [owner_var])).
Proof.
  rewrite (zero_id_counts_as_missing (demo_config "pull_request" false "" "")
             (demo_env zero_pages diffLevels_spec [owner_var] [owner_var])
             3 initial
             (events (searchArtifact (demo_config "pull_request" false "" "")
                        (demo_env zero_pages diffLevels_spec [owner_var]
                           [owner_var]) 3 0 initial))
             (mkVars None (Some "beef01") 0)).
  - reflexivity.
  - vm_compute. reflexivity.
Defined.

(** ** Edge cases of the download and of the upload *)

Lemma searchArtifact_srcContent cfg env fuel :
  ∀ page v,
    srcContent (final (searchArtifact cfg env fuel page v)) = srcContent v.
Proof.
  induction fuel as [|fuel IH]; intros page v; [done|].
  rewrite searchArtifact_step.
  destruct (listArtifactsForRepo env page) as [data|]; [|done].
  destruct (find (is_base_report cfg) data); [done|]. apply IH.
Qed.

(** X8. An archive without entries leaves [srcContent] as the script
    started it: the base layout is then parsed from [undefined], and the
    run fails or goes on as [parseLayout] decides for that value. *)
Theorem empty_archive_parses_undefined cfg env fuel e0 v0 cmp evs v1 id :
  generateAndUpload cfg env initial = mkRun e0 v0 (Ok cmp) →
  eventName cfg = "pull_request" →
  searchArtifact cfg env fuel 0 v0 = mkRun evs v1 (Ok (Some id)) →
  id ≠ 0 →
  downloadArtifact env id = [] →
  let loaded :=
    e0
    ++ EStartGroup ("Searching artifact " +:+ quoted (baseReport cfg)
                    +:+ " on repository " +:+ quoted (repository cfg)
                    +:+ ", on branch " +:+ quoted (baseBranch cfg))
    :: evs
    ++ [EEndGroup;
        EStartGroup ("Downloading artifact " +:+ quoted (baseReport cfg)
                     +:+ " of repository " +:+ quoted (repository cfg)
                     +:+ " with ID " +:+ quoted (pretty id));
        EDownloadArtifact id;
        EEndGroup;
        EInfo "Mapping reference storage layout report"] in
  srcContent v1 = None
  ∧ _run cfg env fuel initial
    = match parseLayout env None with
      | inl e => mkRun loaded v1 (Throw e)
      | inr srcLayout =>
          then_run (mkRun (loaded ++ [EEndGroup]) v1 (Ok tt))
            (checkAndReport cfg env srcLayout cmp v1)
      end.
Proof.
  intros Hgen Hev Hsearch Hid Hzip loaded.
  destruct (generateAndUpload_final cfg env initial) as [Hv0 _].
  rewrite Hgen in Hv0. cbn in Hv0. subst v0.
  assert (srcContent v1 = None) as Hsrc.
  { pose proof (searchArtifact_srcContent cfg env fuel 0%nat initial) as H.
    by rewrite Hsearch in H. }
  split; [done|].
  pose proof (fetchBase_found cfg env fuel initial evs v1 id Hsearch Hid) as Hfetch.
  cbn zeta in Hfetch. rewrite Hzip in Hfetch. cbn [foldl fmap list_fmap] in Hfetch.
  replace {| srcContent := srcContent v1; refCommitHash := refCommitHash v1;
             exitCode := exitCode v1 |} with v1 in Hfetch by by destruct v1.
  rewrite Hsrc in Hfetch.
  unfold _run. erewrite bind_then by exact Hgen. rewrite Hev.
  change (String.eqb "pull_request" "pull_request") with true. cbv iota.
  subst loaded.
  destruct (parseLayout env None) as [e|srcLayout].
  - erewrite bind_throw by exact Hfetch. mdone.
  - erewrite bind_then by exact Hfetch. mdone.
Qed.

Lemma empty_archive_parses_undefined_witness :
  outcome (_run (demo_config "pull_request" false "" "")
             (with_archive
                (demo_env demo_pages diffLevels_spec [owner_var] [owner_var]) [])
             3 initial)
  = Throw (mkJsError "Unexpected end of JSON input"
             (Some "SyntaxError: Unexpected end of JSON input")).
Proof.
  destruct (empty_archive_parses_undefined
              (demo_config "pull_request" false "" "")
              (with_archive
                 (demo_env demo_pages diffLevels_spec [owner_var] [owner_var]) [])
              3
              (events (generateAndUpload
                         (demo_config "pull_request" false "" "")
                         (with_archive
                            (demo_env demo_pages diffLevels_spec [owner_var]
                               [owner_var]) []) initial))
              initial [owner_var]
              (events (searchArtifact
                         (demo_config "pull_request" false "" "")
                         (with_archive
                            (demo_env demo_pages diffLevels_spec [owner_var]
                               [owner_var]) []) 3 0 initial))
              (mkVars None (Some "beef01") 0) 42) as [_ H].
  - vm_compute. reflexivity.
  - reflexivity.
  - vm_compute. reflexivity.
  - discriminate.
  - reflexivity.
  - rewrite H. reflexivity.
Defined.

(** X9. When the upload response carries no id, the run fails with the
    upload error on every event and for every listing: the report file
    has been written, no page of the listing is asked for, and the
    process exits with code 1. *)
Theorem upload_without_id_fails_run cfg env fuel content cmpLayout :
  createLayout env (contract cfg) (workingDirectory cfg) = inr content →
  parseLayout env (Some content) = inr cmpLayout →
  uploadArtifact env (outReport cfg) [resolve env (outReport cfg)]
    (dirname env (resolve env (outReport cfg))) = None →
  run cfg env fuel initial
  = mkRun
      ([EStartGroup ("Generate storage layout of contract "
                     +:+ quoted (contract cfg) +:+ " using foundry forge");
        EInfo "Start forge process";
        EInfo "Parse generated layout"; EEndGroup;
        EWriteFile (resolve env (outReport cfg)) content;
        EStartGroup ("Upload new report from "
                     +:+ quoted (resolve env (outReport cfg))
                     +:+ " as artifact named " +:+ quoted (outReport cfg));
        EUploadArtifact (outReport cfg) [resolve env (outReport cfg)]
          (dirname env (resolve env (outReport cfg))) 9]
       ++ failure_events (Error env "Failed to upload storage layout report."))
      {| srcContent := None; refCommitHash := None; exitCode := 1 |}
      (Ok tt).
Proof.
  intros Hc Hp Hu.
  pose proof (generateAndUpload_run cfg env initial) as Hgen.
  cbn zeta in Hgen. rewrite Hc, Hp, Hu in Hgen. cbn [app] in Hgen.
  assert (_run cfg env fuel initial
          = mkRun (events (generateAndUpload cfg env initial)) initial
              (Throw (Error env "Failed to upload storage layout report.")))
    as Hrun.
  { unfold _run. erewrite bind_throw by exact Hgen. by rewrite Hgen. }
  rewrite (run_of_throw _ _ _ _ _ _ _ Hrun), Hgen. reflexivity.
Qed.

Lemma upload_without_id_fails_run_witness :
  outcome (run (demo_config "pull_request" false "" "")
             (with_upload
                (demo_env demo_pages diffLevels_spec [owner_var] [owner_var])
                None) 0 initial)
  = Ok tt
  ∧ exitCode (final (run (demo_config "pull_request" false "" "")
                       (with_upload
                          (demo_env demo_pages diffLevels_spec [owner_var]
                             [owner_var]) None) 0 initial))
    = 1.
Proof.
  rewrite (upload_without_id_fails_run
             (demo_config "pull_request" false "" "")
             (with_upload
                (demo_env demo_pages diffLevels_spec [owner_var] [owner_var])
                None) 0 "HEAD" [owner_var]); [|reflexivity..].
  split; reflexivity.
Defined.

(** ** The exit code *)

Lemma checkAndReport_final cfg env src cmp v :
  final (checkAndReport cfg env src cmp v) = v.
Proof.
  destruct (snd (checkLayouts env src cmp (checkOptions cfg))) as [|d ds] eqn:E.
  { by rewrite (checkAndReport_no_diff _ _ _ _ _ E). }
  assert (snd (checkLayouts env src cmp (checkOptions cfg)) ≠ []) as Hne
    by by rewrite E.
  destruct (parseSource env (contractAbs cfg)) as [e|sd] eqn:Hsd.
  { by rewrite (checkAndReport_parse_throw _ _ _ _ _ _ Hne Hsd). }
  destruct (format_all_or_first_failure env sd
              (snd (checkLayouts env src cmp (checkOptions cfg))))
    as [[fds Hf]|(ds1 & fds1 & d' & e & ds2 & Hds & Hf & He)].
  - by rewrite (checkAndReport_formatted _ _ _ _ _ _ _ Hne Hsd Hf).
  - by rewrite (checkAndReport_format_throw _ _ _ _ _ _ _ _ _ _ _ Hds Hsd Hf He).
Qed.

Lemma _run_keeps_exit_code cfg env fuel v :
  exitCode (final (_run cfg env fuel v)) = exitCode v.
Proof.
  rewrite _run_split.
  destruct (quiet_acquireLayouts cfg env fuel v) as [_ Hcode].
  unfold mbind, M_bind.
  destruct (outcome (acquireLayouts cfg env fuel v)) as [[[src cmp]|]| |];
    cbn [final afterAcquire]; [|done..].
  by rewrite checkAndReport_final.
Qed.

(** X10. [run] never lets an exception out, and the exit code tells how
    [_run] ended: whenever [_run] ends, [run] returns after a last event
    that exits the process, with code 1 if [_run] threw and with code 0 if
    it returned. *)
Theorem exit_code_tells_outcome cfg env fuel :
  outcome (_run cfg env fuel initial) ≠ Pending →
  let code :=
    match outcome (_run cfg env fuel initial) with
    | Throw _ => 1
    | _ => 0
    end in
  outcome (run cfg env fuel initial) = Ok tt
  ∧ exitCode (final (run cfg env fuel initial)) = code
  ∧ ∃ evs, events (run cfg env fuel initial) = evs ++ [EExit code].
Proof.
  intros Hnp code. subst code.
  pose proof (_run_keeps_exit_code cfg env fuel initial) as Hcode.
  destruct (_run cfg env fuel initial) as [evs v [[]|e|]] eqn:Hrun;
    cbn in Hcode; [| |done].
  - erewrite run_of_ok by exact Hrun. cbn. rewrite Hcode. eauto.
  - erewrite run_of_throw by exact Hrun. unfold failure_events. cbn.
    repeat split.
    exists (evs ++ ESetFailed e
               :: (if truthy_string (stack e)
                   then [EDebug (default "" (stack e))] else [])).
    by rewrite <- !app_assoc.
Qed.

Lemma exit_code_tells_outcome_witness :
  exitCode (final (run (demo_config "pull_request" false "" "")
                     (demo_env demo_pages diffLevels_spec [owner_var] [admin_var])
                     3 initial))
  = 0.
Proof.
  destruct (exit_code_tells_outcome (demo_config "pull_request" false "" "")
              (demo_env demo_pages diffLevels_spec [owner_var] [admin_var]) 3)
    as (_ & H & _).
  - vm_compute. discriminate.
  - rewrite H. vm_compute. reflexivity.
Defined.

(** ** Errors while the diffs are reported *)

(** X11. A diff that [formatDiff] cannot format stops the report: the
    diffs before it have been annotated, those after it never are, and the
    run fails with the error of [formatDiff], not with the unsafe-layout
    error, whatever the kinds of the diffs annotated so far. *)
Theorem format_error_stops_report
    cfg env fuel evs v src cmp sd ds1 fds1 d e ds2 :
  acquireLayouts cfg env fuel initial = mkRun evs v (Ok (Some (src, cmp))) →
  parseSource env (contractAbs cfg) = inr sd →
  snd (checkLayouts env src cmp (checkOptions cfg)) = ds1 ++ d :: ds2 →
  Forall2 (λ d fd, formatDiff env sd d = inr fd) ds1 fds1 →
  formatDiff env sd d = inl e →
  let reported :=
    evs ++ EStartGroup "Check storage layout"
        :: fst (checkLayouts env src cmp (checkOptions cfg))
        ++ EInfo "Parse source code" :: (annotation env sd <$> fds1) in
  _run cfg env fuel initial = mkRun reported v (Throw e)
  ∧ events (run cfg env fuel initial) = reported ++ failure_events e.
Proof.
  intros Hacq Hsd Hds Hfmt He reported.
  pose proof (reach_check _ _ _ _ _ _ _ _ Hacq) as Hrun.
  rewrite (checkAndReport_format_throw _ _ _ _ _ _ _ _ _ _ _ Hds Hsd Hfmt He)
    in Hrun.
  unfold then_run in Hrun. cbn in Hrun.
  split; [done|]. by erewrite run_of_throw by exact Hrun.
Qed.

Lemma format_error_stops_report_witness :
  outcome (_run (demo_config "pull_request" false "" "")
             (demo_env demo_pages diffLevels_spec [balance256_var]
                [balance128_var; fresh_var]) 3 initial)
  = Throw (SourceLocationNotFoundError "fresh").
Proof.
  destruct (format_error_stops_report
              (demo_config "pull_request" false "" "")
              (demo_env demo_pages diffLevels_spec [balance256_var]
                 [balance128_var; fresh_var]) 3
              (events (acquireLayouts (demo_config "pull_request" false "" "")
                         (demo_env demo_pages diffLevels_spec [balance256_var]
                            [balance128_var; fresh_var]) 3 initial))
              (mkVars (Some "BASE") (Some "beef01") 0)
              [balance256_var] [balance128_var; fresh_var] demo_source
              [mkDiff TYPE_CHANGED "balance" (Some balance256_var)
                 (Some balance128_var) None]
              [balance_retyped]
              (mkDiff VARIABLE_ADDED "fresh" None (Some fresh_var) None)
              (SourceLocationNotFoundError "fresh") []) as [H _].
  - vm_compute. reflexivity.
  - reflexivity.
  - vm_compute. reflexivity.
  - vm_compute. repeat constructor.
  - vm_compute. reflexivity.
  - rewrite H. reflexivity.
Defined.

(** X12. The source file matters only when there is a diff: without a
    diff [parseSource] is not consulted and the run passes; with a diff, a
    source that [parseSource] rejects fails the run with its error before
    any diff is annotated. *)
Theorem source_parsed_only_for_diffs cfg env fuel evs v src cmp :
  acquireLayouts cfg env fuel initial = mkRun evs v (Ok (Some (src, cmp))) →
  (snd (checkLayouts env src cmp (checkOptions cfg)) = [] →
   _run cfg env fuel initial
   = mkRun (evs ++ EStartGroup "Check storage layout"
                :: fst (checkLayouts env src cmp (checkOptions cfg))
                ++ [EEndGroup]) v (Ok tt))
  ∧ (∀ e,
       snd (checkLayouts env src cmp (checkOptions cfg)) ≠ [] →
       parseSource env (contractAbs cfg) = inl e →
       _run cfg env fuel initial
       = mkRun (evs ++ EStartGroup "Check storage layout"
                    :: fst (checkLayouts env src cmp (checkOptions cfg))
                    ++ [EInfo "Parse source code"]) v (Throw e)).
Proof.
  intros Hacq.
  pose proof (reach_check _ _ _ _ _ _ _ _ Hacq) as Hrun.
  split.
  - intros Hnil. by rewrite (checkAndReport_no_diff _ _ _ _ _ Hnil) in Hrun.
  - intros e Hne Hsd.
    by rewrite (checkAndReport_parse_throw _ _ _ _ _ _ Hne Hsd) in Hrun.
Qed.

Lemma source_parsed_only_for_diffs_witness :
  outcome (_run (demo_config "pull_request" false "" "")
             (with_source
                (demo_env demo_pages diffLevels_spec [owner_var] [owner_var])
                (inl (mkJsError "ENOENT" None))) 3 initial)
  = Ok tt.
Proof.
  destruct (source_parsed_only_for_diffs
              (demo_config "pull_request" false "" "")
              (with_source
                 (demo_env demo_pages diffLevels_spec [owner_var] [owner_var])
                 (inl (mkJsError "ENOENT" None))) 3
              (events (acquireLayouts (demo_config "pull_request" false "" "")
                         (with_source
                            (demo_env demo_pages diffLevels_spec [owner_var]
                               [owner_var])
                            (inl (mkJsError "ENOENT" None))) 3 initial))
              (mkVars (Some "BASE") (Some "beef01") 0)
              [owner_var] [owner_var]) as [H _].
  - vm_compute. reflexivity.
  - rewrite H; reflexivity.
Defined.

(** ** What the decision looks at *)

(** X13. The decision of lines 161 to 166 looks at the kinds of the
    formatted diffs only: two reports in which the same kinds occur lead
    to the same decision, whatever the order, the number, the messages and
    the spans of their diffs. *)
Theorem decision_depends_on_kinds cfg env fds fds' :
  (∀ k, k ∈ (fd_type <$> fds) ↔ k ∈ (fd_type <$> fds')) →
  unsafeChanges cfg env fds = unsafeChanges cfg env fds'.
Proof.
  intros Hkinds.
  assert (∀ (P : StorageLayoutDiffType → Prop) (l l' : list FormattedDiff),
            (∀ k, k ∈ (fd_type <$> l) ↔ k ∈ (fd_type <$> l')) →
            (∃ d, d ∈ l ∧ P (fd_type d)) → ∃ d, d ∈ l' ∧ P (fd_type d))
    as Hmove.
  { intros P l l' H (d & Hd & HP).
    assert (fd_type d ∈ (fd_type <$> l')) as Hin
      by (apply H; by apply list_elem_of_fmap_2).
    apply list_elem_of_fmap in Hin as (d' & Heq & Hd').
    exists d'. split; [done|]. by rewrite <- Heq. }
  assert (∀ l l' : list FormattedDiff,
            (∀ k, k ∈ (fd_type <$> l) ↔ k ∈ (fd_type <$> l')) →
                  unsafeChanges cfg env l = true →
                  unsafeChanges cfg env l' = true) as Hone.
  { intros l l' H. rewrite !unsafeChanges_iff. intros [Herr|[Hgate Hrem]].
    - left. by apply (Hmove (λ k, diffLevels env !! k = Some error_level) l l').
    - right. split; [done|].
      by apply (Hmove (λ k, k = VARIABLE_REMOVED) l l'). }
  destruct (unsafeChanges cfg env fds) eqn:E1,
    (unsafeChanges cfg env fds') eqn:E2; try done.
  - by rewrite (Hone fds fds' Hkinds E1) in E2.
  - assert (∀ k, k ∈ (fd_type <$> fds') ↔ k ∈ (fd_type <$> fds)) as Hsym
      by (intros k; by rewrite Hkinds).
    by rewrite (Hone fds' fds Hsym E2) in E1.
Qed.

Lemma decision_depends_on_kinds_witness :
  unsafeChanges (demo_config "pull_request" true "" "")
    (demo_env demo_pages diffLevels_spec [owner_var] [owner_var])
    [balance_retyped; legacy_removed]
  = unsafeChanges (demo_config "pull_request" true "" "")
      (demo_env demo_pages diffLevels_spec [owner_var] [owner_var])
      [legacy_removed; mkFormatted TYPE_CHANGED "other" (demo_span 9);
       balance_retyped].
Proof.
  apply decision_depends_on_kinds. intros k. cbn.
  rewrite !elem_of_cons, !elem_of_nil. tauto.
Defined.

(** X14. A failing decision always has something to show: some diff of
    the report was annotated with [error], unless [failOnRemoval] is set,
    the table rates removals as warnings, and a [VARIABLE_REMOVED] diff
    was annotated with [warning]. *)
Theorem failing_decision_has_annotation cfg env sd fds :
  unsafeChanges cfg env fds = true →
  (∃ fd, fd ∈ fds
         ∧ annotation env sd fd
           = EError (fd_message fd) (annotationProperties env sd fd))
  ∨ (failOnRemoval cfg = true
     ∧ diffLevels env !! VARIABLE_REMOVED = Some warning_level
     ∧ ∃ fd, fd ∈ fds ∧ fd_type fd = VARIABLE_REMOVED
             ∧ annotation env sd fd
               = EWarning (fd_message fd) (annotationProperties env sd fd)).
Proof.
  assert (∀ fd, level_of env (fd_type fd) = error_level →
                annotation env sd fd
                = EError (fd_message fd) (annotationProperties env sd fd))
    as Herror.
  { intros fd Hl. unfold annotation. rewrite Hl. by destruct (decide _). }
  rewrite unsafeChanges_iff. intros [(fd & Hin & Hlevel)|(Hgate & fd & Hin & Hk)].
  - left. exists fd. split; [done|]. apply Herror.
    unfold level_of. by rewrite Hlevel.
  - destruct (diffLevels env !! VARIABLE_REMOVED) as [[]|] eqn:Hlevel.
    + right. split; [done|]. split; [done|]. exists fd.
      split; [done|]. split; [done|].
      unfold annotation, level_of. rewrite Hk, Hlevel. by destruct (decide _).
    + left. exists fd. split; [done|]. apply Herror.
      unfold level_of. by rewrite Hk, Hlevel.
    + left. exists fd. split; [done|]. apply Herror.
      unfold level_of. by rewrite Hk, Hlevel.
Qed.

Lemma failing_decision_has_annotation_witness :
  (∃ fd, fd ∈ [balance_retyped]
         ∧ annotation
             (demo_env demo_pages diffLevels_spec [balance256_var] [balance128_var])
             demo_source fd
           = EError (fd_message fd)
               (annotationProperties
                  (demo_env demo_pages diffLevels_spec [balance256_var]
                     [balance128_var]) demo_source fd))
  ∨ (failOnRemoval (demo_config "pull_request" false "" "") = true
     ∧ diffLevels
         (demo_env demo_pages diffLevels_spec [balance256_var] [balance128_var])
         !! VARIABLE_REMOVED = Some warning_level
     ∧ ∃ fd, fd ∈ [balance_retyped] ∧ fd_type fd = VARIABLE_REMOVED
             ∧ annotation
                 (demo_env demo_pages diffLevels_spec [balance256_var]
                    [balance128_var]) demo_source fd
               = EWarning (fd_message fd)
                   (annotationProperties
                      (demo_env demo_pages diffLevels_spec [balance256_var]
                         [balance128_var]) demo_source fd)).
Proof.
  apply (failing_decision_has_annotation
           (demo_config "pull_request" false "" "")
           (demo_env demo_pages diffLevels_spec [balance256_var] [balance128_var])
           demo_source [balance_retyped]).
  vm_compute. reflexivity.
Defined.

(** ** Log groups *)

Lemma net_groups_app evs evs' :
  net_groups (evs ++ evs') = net_groups evs + net_groups evs'.
Proof.
  induction evs as [|ev evs IH]; [done|].
  destruct ev; cbn [app net_groups]; lia.
Qed.

Lemma net_groups_none evs :
  Forall (λ ev, is_group ev = false) evs → net_groups evs = 0.
Proof.
  induction 1 as [|ev evs Hev _ IH]; [done|]. by destruct ev.
Qed.

Lemma leaves_open_bind {A B} d1 d (m : M A) (k : A → M B) :
  leaves_open d1 m → (∀ a, leaves_open (d - d1) (k a)) →
  leaves_open d (m ≫= k).
Proof.
  intros Hm Hk v b. unfold mbind, M_bind.
  destruct (outcome (m v)) as [a| |] eqn:E; cbn; [|done..].
  intros Hb. rewrite net_groups_app, (Hm v a E), (Hk a _ b Hb). lia.
Qed.

Lemma leaves_open_emit ev : leaves_open (net_groups [ev]) (emit ev).
Proof. by intros v a _. Qed.

Lemma leaves_open_last ev d : d = net_groups [ev] → leaves_open d (emit ev).
Proof. intros ->. apply leaves_open_emit. Qed.

Lemma leaves_open_emit_all evs : leaves_open (net_groups evs) (emit_all evs).
Proof. by intros v a _. Qed.

Lemma leaves_open_ret {A} d (a : A) : d = 0 → leaves_open d (mret a).
Proof. by intros -> v b _. Qed.

Lemma leaves_open_throw {A} d e : leaves_open d (@throw A e).
Proof. by intros v a. Qed.

Lemma leaves_open_pending {A} d : leaves_open d (@pending A).
Proof. by intros v a. Qed.

Lemma leaves_open_call {A} (r : JsError + A) : leaves_open 0 (call r).
Proof. destruct r; [apply leaves_open_throw | by apply leaves_open_ret]. Qed.

Lemma leaves_open_vars {A} (m : M A) :
  (∀ v, events (m v) = []) → leaves_open 0 m.
Proof. intros H v a _. by rewrite H. Qed.

Ltac groups_step :=
  first
    [ eapply leaves_open_bind;
      [ first [ apply leaves_open_emit | apply leaves_open_call
              | apply leaves_open_vars; intros ?; reflexivity ]
      | intros ?; cbn [net_groups] ]
    | apply leaves_open_throw
    | apply leaves_open_ret; reflexivity
    | apply leaves_open_last; reflexivity ].

Lemma leaves_open_for_each {A} (body : A → M unit) xs :
  (∀ x, leaves_open 0 (body x)) → leaves_open 0 (for_each body xs).
Proof.
  intros H. induction xs as [|x xs IH]; cbn [for_each].
  - by apply leaves_open_ret.
  - eapply leaves_open_bind; [apply H | by intros _].
Qed.

Lemma leaves_open_searchArtifact cfg env fuel page :
  leaves_open 0 (searchArtifact cfg env fuel page).
Proof.
  revert page. induction fuel as [|fuel IH]; intros page;
    cbn [searchArtifact].
  - apply leaves_open_pending.
  - groups_step.
    destruct (listArtifactsForRepo env page) as [data|]; [|groups_step].
    destruct (find _ data) as [artifact|].
    + unfold info. repeat groups_step.
    + groups_step. apply IH.
Qed.

Lemma leaves_open_generateAndUpload cfg env :
  leaves_open 0 (generateAndUpload cfg env).
Proof.
  unfold generateAndUpload, startGroup, endGroup, info.
  do 9 groups_step.
  destruct (uploadArtifact _ _ _ _); repeat groups_step.
Qed.

Lemma leaves_open_fetchBase cfg env fuel :
  leaves_open (-1) (fetchBase cfg env fuel).
Proof.
  unfold fetchBase, startGroup, endGroup, info.
  groups_step.
  eapply leaves_open_bind; [apply leaves_open_searchArtifact | intros id].
  groups_step.
  eapply leaves_open_bind with (d1 := 0).
  { destruct (truthy_id id); [|apply leaves_open_throw].
    do 2 groups_step.
    eapply leaves_open_bind with (d1 := 0); [|intros ?; groups_step].
    apply leaves_open_for_each. intros x. unfold loadEntry, info.
    repeat groups_step. }
  intros _. repeat groups_step.
Qed.

Lemma leaves_open_formatAll env sd diffs :
  leaves_open 0 (map_M (formatAndAnnotate env sd) diffs).
Proof.
  induction diffs as [|d ds IH]; cbn [map_M]; [by apply leaves_open_ret|].
  eapply leaves_open_bind with (d1 := 0).
  - unfold formatAndAnnotate, error, warning. groups_step.
    destruct (decide _); repeat groups_step.
  - intros fd. eapply leaves_open_bind; [apply IH | intros ?; groups_step].
Qed.

Lemma leaves_open_checkAndReport cfg env src cmp :
  Forall (λ ev, is_group ev = false)
    (fst (checkLayouts env src cmp (checkOptions cfg))) →
  leaves_open 0 (checkAndReport cfg env src cmp).
Proof.
  intros Hengine. unfold checkAndReport, startGroup, endGroup, info.
  groups_step.
  eapply leaves_open_bind; [apply leaves_open_emit_all | intros _].
  rewrite (net_groups_none _ Hengine).
  eapply leaves_open_bind with (d1 := 0); [|intros _; repeat groups_step].
  destruct (0 <? _)%nat; [|by apply leaves_open_ret].
  do 2 groups_step.
  eapply leaves_open_bind; [apply leaves_open_formatAll | intros fds].
  destruct (unsafeChanges cfg env fds); groups_step.
Qed.

(** X15. The log groups do not pair up on a pull request.  Line 131
    closes a group that line 126 has closed already, so when the check
    begins the script has closed one group more than it has opened, and
    (the diff engine logging no group of its own) so has a run of [_run]
    that returns; outside a pull request the groups of a returning run
    pair up. *)
Theorem base_phase_closes_a_group_twice cfg env fuel v0 evs v r :
  acquireLayouts cfg env fuel v0 = mkRun evs v (Ok r) →
  (∀ src cmp, r = Some (src, cmp) →
     Forall (λ ev, is_group ev = false)
       (fst (checkLayouts env src cmp (checkOptions cfg)))) →
  let open := if String.eqb (eventName cfg) "pull_request" then -1 else 0 in
  net_groups evs = open
  ∧ (outcome (_run cfg env fuel v0) = Ok tt →
     net_groups (events (_run cfg env fuel v0)) = open).
Proof.
  intros Hacq Hengine open.
  assert (net_groups evs = open
          ∧ (String.eqb (eventName cfg) "pull_request" = false → r = None))
    as [Hopen Hnone].
  { revert Hacq. unfold acquireLayouts.
    pose proof (leaves_open_generateAndUpload cfg env v0) as Hgen.
    destruct (generateAndUpload cfg env v0) as [e1 v1 [cmp'| |]] eqn:Eg;
      [|erewrite bind_throw by exact Eg; done
       |erewrite bind_pending by exact Eg; done].
    erewrite bind_then by exact Eg. specialize (Hgen cmp' eq_refl).
    cbn [events] in Hgen. subst open.
    destruct (String.eqb (eventName cfg) "pull_request").
    - pose proof (leaves_open_fetchBase cfg env fuel v1) as Hfetch.
      destruct (fetchBase cfg env fuel v1) as [e2 v2 [src'| |]] eqn:Ef;
        [|erewrite bind_throw by exact Ef; done
         |erewrite bind_pending by exact Ef; done].
      erewrite bind_then by exact Ef. specialize (Hfetch src' eq_refl).
      cbn [events] in Hfetch. unfold then_run. cbn.
      intros [= <- _ _]. split; [|done].
      rewrite !net_groups_app, Hgen, Hfetch. cbn. lia.
    - unfold then_run. cbn. intros [= <- _ <-]. split; [|done].
      rewrite net_groups_app, Hgen. cbn. lia. }
  split; [done|].
  rewrite _run_split. erewrite bind_then by exact Hacq.
  unfold then_run. cbn [events final outcome]. intros Hok.
  rewrite net_groups_app, Hopen.
  destruct r as [[src cmp]|]; cbn [afterAcquire] in *.
  - rewrite (leaves_open_checkAndReport cfg env src cmp
               (Hengine src cmp eq_refl) v tt Hok). lia.
  - cbn. lia.
Qed.

Lemma base_phase_closes_a_group_twice_witness :
  net_groups
    (events (acquireLayouts (demo_config "pull_request" true "" "")
               (demo_env demo_pages diffLevels_spec [owner_var] [owner_var])
               3 initial)) = -1
  ∧ net_groups
      (events (_run (demo_config "pull_request" true "" "")
                 (demo_env demo_pages diffLevels_spec [owner_var] [owner_var])
                 3 initial)) = -1.
Proof.
  pose proof (base_phase_closes_a_group_twice
                (demo_config "pull_request" true "" "")
                (demo_env demo_pages diffLevels_spec [owner_var] [owner_var])
                3 initial
                (events (acquireLayouts (demo_config "pull_request" true "" "")
                   (demo_env demo_pages diffLevels_spec [owner_var] [owner_var])
                   3 initial))
                (mkVars (Some "BASE") (Some "beef01") 0)
                (Some ([owner_var], [owner_var]))) as H.
  destruct H as [Hopen Hrun].
  - vm_compute. reflexivity.
  - intros src cmp [= <- <-]. vm_compute. constructor.
  - split; [exact Hopen|]. apply Hrun. vm_compute. reflexivity.
Defined.
